(** * Voice Translator (app.py): a shallow embedding and its properties

    The Streamlit script [app.py] chains speech-to-text, translation and
    text-to-speech over uploaded audio files (batch mode) or over short
    microphone chunks (live mode).  Every external library the script calls
    (speech_recognition, whisper, deep-translator, langdetect, gTTS, pyttsx3,
    pydub, the microphone, the clock) is represented by an oracle of a
    [World]; an oracle receives the history of the run so far, so that the
    same call may answer differently each time it is made.  Python
    exceptions are results [Raise e]; the side effects the properties speak
    about (Streamlit messages, external calls, sleeps, thread starts) are
    recorded in a trace, and the dictionaries bound to [_live_flag] live in a
    small heap.

    Calls that only display or wait ([st.warning], [st.error], [st.write],
    [st.success], [time.sleep]), the constructor [sr.Recognizer()], string
    formatting and starting a thread are taken not to raise; every other
    library call may. *)

From Stdlib Require Import Ascii.
From stdpp Require Import base option list strings gmap pretty.

(** ** Python values, exceptions, results *)

(** The values the pipeline stores in variables that may hold [None]. *)
Inductive PyVal :=
| PyNone
| PyStr (s : string).

#[global] Instance PyVal_eq_dec : EqDecision PyVal.
Proof. solve_decision. Defined.

(** Python truthiness: [None] and [''] are false. *)
Definition truthy (v : PyVal) : bool :=
  match v with
  | PyNone => false
  | PyStr s => negb (String.eqb s "")
  end.

(** [str(v)], as used by f-strings. *)
Definition py_str (v : PyVal) : string :=
  match v with
  | PyNone => "None"
  | PyStr s => s
  end.

(** Exceptions deriving from [Exception], the class every handler of the
    script catches; [sr.UnknownValueError] is the one subclass the script
    names in a handler of its own. *)
Inductive Exn :=
| UnknownValueError
| Exception (msg : string).

#[global] Instance Exn_eq_dec : EqDecision Exn.
Proof. solve_decision. Defined.

(** [str(e)] *)
Definition exn_str (e : Exn) : string :=
  match e with
  | UnknownValueError => ""
  | Exception msg => msg
  end.

Inductive Result (A : Type) :=
| Ok (a : A)
| Raise (e : Exn).
Arguments Ok {A} a.
Arguments Raise {A} e.

(** ** Effects *)

(** The external operations of the script. *)
Inductive Api :=
| AudioFile_record        (* with sr.AudioFile(p) as source: r.record(source) *)
| recognize_google        (* r.recognize_google(audio) *)
| whisper_load_model
| whisper_transcribe
| GoogleTranslator_translate
| langdetect_detect
| gTTS_create             (* gTTS(text=..., lang=...) *)
| gTTS_save
| pyttsx3_init
| pyttsx3_save_to_file
| pyttsx3_runAndWait
| AudioSegment_from_file
| AudioSegment_export
| sr_Microphone           (* sr.Microphone() *)
| Microphone_enter        (* with mic as source *)
| Microphone_exit
| adjust_for_ambient_noise
| Microphone_record       (* r.record(source, duration=...) *)
| NamedTemporaryFile
| write_wav_data
| time_time.

#[global] Instance Api_eq_dec : EqDecision Api.
Proof. solve_decision. Defined.

Inductive Event :=
| st_warning (msg : string)
| st_error (msg : string)
| st_success (msg : string)
| st_write (msg : string)
| Invoke (api : Api) (args : list string)
| time_sleep (secs : nat)
| Thread_start_play (path : string)       (* Thread(target=play_audio_file, args=(path,)) *)
| Thread_start_live (flag : nat).         (* Thread(target=live_loop, ...), with its _live_flag *)

#[global] Instance Event_eq_dec : EqDecision Event.
Proof. solve_decision. Defined.

Definition History := list Event.

(** The mutable state of a run: what happened so far, and the heap of
    dictionaries [{'run': b}] allocated for [_live_flag]. *)
Record State := mkState {
  trace : History;
  flags : list bool
}.

Definition log (ev : Event) (s : State) : State :=
  mkState (trace s ++ [ev]) (flags s).

Definition set_flag (l : nat) (b : bool) (s : State) : State :=
  mkState (trace s) (<[l := b]> (flags s)).

Definition get_flag (l : nat) (s : State) : bool :=
  default false (flags s !! l).

(** A computation threads the state and may raise. *)
Definition M (A : Type) : Type := State → Result A * State.

Definition ret {A} (a : A) : M A := λ s, (Ok a, s).

Definition bind {A B} (m : M A) (k : A → M B) : M B :=
  λ s, match m s with
       | (Ok a, s') => k a s'
       | (Raise e, s') => (Raise e, s')
       end.

#[global] Instance M_ret : MRet M := @ret.
#[global] Instance M_bind : MBind M := λ A B k m, bind m k.

(** [try: m  except Exception as e: h e] *)
Definition try_except {A} (m : M A) (h : Exn → M A) : M A :=
  λ s, match m s with
       | (Ok a, s') => (Ok a, s')
       | (Raise e, s') => h e s'
       end.

Definition emit (ev : Event) : M unit := λ s, (Ok tt, log ev s).

(** An external call: it is recorded, and the oracle answers from the
    history before the call. *)
Definition extcall {A} (api : Api) (args : list string)
    (oracle : History → Result A) : M A :=
  λ s, (oracle (trace s), log (Invoke api args) s).

Definition AudioData := list Byte.byte.

(** The oracles.  [has_whisper] and [has_pyttsx3] are the two import
    probes at the top of the script. *)
Record World := mkWorld {
  has_whisper : bool;
  has_pyttsx3 : bool;
  tempdir : string;                                                   (* tempfile.gettempdir() *)
  w_time : History → N;                                               (* int(time.time()) *)
  w_AudioFile_record : History → string → Result AudioData;
  w_recognize_google : History → AudioData → Result string;
  w_load_model : History → string → Result nat;
  w_transcribe : History → nat → string → Result (option string);     (* the 'text' entry of the result *)
  w_translate : History → string → string → Result string;            (* target, text *)
  w_detect : History → string → Result string;
  w_gTTS : History → string → string → Result unit;                   (* text, lang *)
  w_gTTS_save : History → string → Result unit;
  w_pyttsx3_init : History → Result unit;
  w_save_to_file : History → string → string → Result unit;           (* text, path *)
  w_runAndWait : History → Result unit;
  w_from_file : History → string → Result AudioData;
  w_export : History → AudioData → string → Result unit;
  w_Microphone : History → Result unit;
  w_mic_enter : History → Result unit;
  w_adjust : History → Result unit;
  w_mic_record : History → nat → Result AudioData;
  w_tempfile : History → string → Result string;                      (* suffix ↦ tf.name *)
  w_write_wav : History → string → AudioData → Result unit;
  w_concurrent_stop : History → bool     (* another thread cleared the flag meanwhile *)
}.

(** The sidebar settings read as globals by the functions below. *)
Record Settings := mkSettings {
  stt_backend : string;
  use_lang_detect : bool
}.

Section Pipeline.

Variable w : World.
Variable cfg : Settings.

(** ** Helpers (lines 104-173) *)

Definition recognize_with_google (audio_path : string) : M string :=
  audio ← extcall AudioFile_record [audio_path] (λ h, w_AudioFile_record w h audio_path);
  try_except
    (extcall recognize_google [] (λ h, w_recognize_google w h audio))
    (λ e, match e with
          | UnknownValueError => mret ""
          | Exception _ => emit (st_warning ("Google STT error: " +:+ exn_str e));; mret ""
          end).

Definition recognize_with_whisper (audio_path : string) : M string :=
  let model_name := "small" in
  if negb (has_whisper w) then
    emit (st_warning "Whisper not installed. Install 'whisper' package to use local Whisper.");;
    mret ""
  else
    try_except
      (model ← extcall whisper_load_model [model_name] (λ h, w_load_model w h model_name);
       result ← extcall whisper_transcribe [audio_path] (λ h, w_transcribe w h model audio_path);
       mret (default "" result))
      (λ e, emit (st_warning ("Whisper error: " +:+ exn_str e));; mret "").

(** The translator is taken to answer with a string when it answers. *)
Definition translate_text (text target_lang : string) : M string :=
  if String.eqb text "" then mret ""
  else
    try_except
      (extcall GoogleTranslator_translate [target_lang; text] (λ h, w_translate w h target_lang text))
      (λ e, emit (st_warning ("Translation error: " +:+ exn_str e));; mret "").

Definition detect_language (text : string) : M PyVal :=
  try_except
    (code ← extcall langdetect_detect [text] (λ h, w_detect w h text); mret (PyStr code))
    (λ _, mret PyNone).

Definition tts_gtts_and_save (text lang out_path : string) : M PyVal :=
  if String.eqb text "" then mret PyNone
  else
    try_except
      (extcall gTTS_create [text; lang] (λ h, w_gTTS w h text lang);;
       extcall gTTS_save [out_path] (λ h, w_gTTS_save w h out_path);;
       mret (PyStr out_path))
      (λ e, emit (st_warning ("gTTS error: " +:+ exn_str e));; mret PyNone).

Definition tts_pyttsx3_and_save (text out_path : string) : M PyVal :=
  if negb (has_pyttsx3 w) then
    emit (st_warning "pyttsx3 not installed. Install with `pip install pyttsx3` to use offline TTS.");;
    mret PyNone
  else
    try_except
      (extcall pyttsx3_init [] (w_pyttsx3_init w);;
       extcall pyttsx3_save_to_file [text; out_path] (λ h, w_save_to_file w h text out_path);;
       extcall pyttsx3_runAndWait [] (w_runAndWait w);;
       mret (PyStr out_path))
      (λ e, emit (st_warning ("pyttsx3 error: " +:+ exn_str e));; mret PyNone).

(** ** Paths *)

(** [os.path.join(a, b)] (POSIX). *)
Definition path_join (a b : string) : string :=
  if String.prefix "/" b then b
  else if String.eqb a "" then b
  else if String.eqb (String.substring (String.length a - 1) 1 a) "/" then a +:+ b
  else a +:+ "/" +:+ b.

(** [s.replace('.mp3', '.wav')]: every occurrence, left to right. *)
Fixpoint replace_mp3_wav (s : string) : string :=
  match s with
  | String "."%char (String "m"%char (String "p"%char (String "3"%char rest))) =>
      ".wav" +:+ replace_mp3_wav rest
  | String c rest => String c (replace_mp3_wav rest)
  | EmptyString => EmptyString
  end.

(** [int(time.time())] *)
Definition now : M N := extcall time_time [] (λ h, Ok (w_time w h)).

(** ** The pipeline on one audio file (lines 249-289) *)

Definition speech_to_text (audio_file : string) : M string :=
  if String.prefix "Google" (stt_backend cfg) then recognize_with_google audio_file
  else recognize_with_whisper audio_file.

(** [pydub] turns the WAV written by pyttsx3 into an MP3; on failure the
    WAV path is kept ([except Exception: pass]). *)
Definition convert_to_mp3 (wav_path out_path : string) (tts_file : PyVal) : M PyVal :=
  if truthy tts_file then
    try_except
      (aud ← extcall AudioSegment_from_file [wav_path] (λ h, w_from_file w h wav_path);
       extcall AudioSegment_export [out_path] (λ h, w_export w h aud out_path);;
       mret (PyStr out_path))
      (λ _, mret tts_file)
  else mret tts_file.

Definition process_single_file (audio_file target_lang tts_engine_choice : string)
    : M (gmap string PyVal) :=
  src_text ← speech_to_text audio_file;
  if String.eqb src_text "" then
    mret (<["error" := PyStr "STT failed or empty"]>
            (<["source_text" := PyStr ""]> (<["translated" := PyStr ""]> ∅)))
  else
    detected ← (if use_lang_detect cfg then detect_language src_text else mret PyNone);
    translated ← translate_text src_text target_lang;
    t ← now;
    let filename := "translated_" +:+ pretty t +:+ ".mp3" in
    let out_path := path_join (tempdir w) filename in
    tts_file ← (if String.eqb tts_engine_choice "gTTS (online)" then
                  tts_gtts_and_save translated target_lang out_path
                else
                  let wav_path := replace_mp3_wav out_path in
                  tts_file ← tts_pyttsx3_and_save translated wav_path;
                  convert_to_mp3 wav_path out_path tts_file);
    mret (<["error" := PyNone]>
            (<["source_text" := PyStr src_text]>
               (<["detected_lang" := detected]>
                  (<["translated" := PyStr translated]>
                     (<["tts_file" := tts_file]> ∅))))).

(** ** Batch processing (lines 318-331) *)

Definition collect_inputs (recorded_tempfile : option string) (uploaded_paths : list string)
    : M (list string) :=
  match recorded_tempfile, uploaded_paths with
  | Some p, _ => mret [p]
  | None, _ :: _ => mret uploaded_paths
  | None, [] => emit (st_error "No audio inputs provided.");; mret []
  end.

(** [for audio_path in inputs: res = process_single_file(...); results.append((audio_path, res))] *)
Fixpoint batch_loop (inputs : list string) (translate_target tts_choice : string)
    (results : list (string * gmap string PyVal)) : M (list (string * gmap string PyVal)) :=
  match inputs with
  | [] => mret results
  | audio_path :: rest =>
      res ← process_single_file audio_path translate_target tts_choice;
      batch_loop rest translate_target tts_choice (results ++ [(audio_path, res)])
  end.

Definition run_batch (inputs : list string) (translate_target tts_choice : string)
    : M (list (string * gmap string PyVal)) :=
  batch_loop inputs translate_target tts_choice [].

(** The audio branch of "Run Translation Pipeline", up to line 331. *)
Definition run_translation_pipeline (recorded_tempfile : option string)
    (uploaded_paths : list string) (translate_target tts_choice : string)
    : M (list (string * gmap string PyVal)) :=
  inputs ← collect_inputs recorded_tempfile uploaded_paths;
  run_batch inputs translate_target tts_choice.

End Pipeline.

(** ** Live translation (lines 356-433) *)

(** How an observation of the loop over a bounded number of cycles ends:
    the loop test found the flag cleared, or the loop is still going. *)
Inductive LoopStatus :=
| Returned
| StillRunning.

#[global] Instance LoopStatus_eq_dec : EqDecision LoopStatus.
Proof. solve_decision. Defined.

Section Live.

Variable w : World.
Variable cfg : Settings.

(** [_live_flag['run'] = b], on the dictionary at [g]. *)
Definition store_run (g : nat) (b : bool) : M unit := λ s, (Ok tt, set_flag g b s).

(** Reading [_live_flag['run']] at the loop test: the controlling thread
    may have cleared the flag since the last look. *)
Definition load_run (g : nat) : M bool :=
  λ s, let s' := if w_concurrent_stop w (trace s) then set_flag g false s else s in
       (Ok (get_flag g s'), s').

(** The statements inside [try:] of one cycle (lines 373-417). *)
Definition live_cycle_body (target_lang : string) (chunk_sec pause_sec : nat)
    (tts_engine_choice : string) : M unit :=
  audio ← extcall Microphone_record [pretty chunk_sec] (λ h, w_mic_record w h chunk_sec);
  tf ← extcall NamedTemporaryFile [".wav"] (λ h, w_tempfile w h ".wav");
  extcall write_wav_data [tf] (λ h, w_write_wav w h tf audio);;
  src_text ← speech_to_text w cfg tf;
  if String.eqb src_text "" then
    (* nothing recognized; continue *)
    emit (time_sleep pause_sec)
  else
    detected ← (if use_lang_detect cfg then detect_language w src_text else mret PyNone);
    translated ← translate_text w src_text target_lang;
    emit (st_write ("**Live Detected (" +:+ py_str detected +:+ "):** " +:+ src_text));;
    emit (st_write ("**Live Translated (" +:+ target_lang +:+ "):** " +:+ translated));;
    t ← now w;
    let fname := "live_" +:+ pretty t +:+ ".mp3" in
    let out_path := path_join (tempdir w) fname in
    tts_file ← (if String.prefix "gTTS" tts_engine_choice then
                  tts_gtts_and_save w translated target_lang out_path
                else
                  tts_file ← tts_pyttsx3_and_save w translated (replace_mp3_wav out_path);
                  convert_to_mp3 w (py_str tts_file) out_path tts_file);
    (if truthy tts_file then emit (Thread_start_play (py_str tts_file)) else mret tt);;
    emit (time_sleep pause_sec).

(** One cycle: the body under its [try], with the handler of lines 418-420. *)
Definition live_cycle (target_lang : string) (chunk_sec pause_sec : nat)
    (tts_engine_choice : string) : M unit :=
  try_except
    (live_cycle_body target_lang chunk_sec pause_sec tts_engine_choice)
    (λ e, emit (st_warning ("Live loop error: " +:+ exn_str e));; emit (time_sleep 1)).

(** [while _live_flag['run']: ...], observed for at most [fuel] cycles. *)
Fixpoint live_while (fuel : nat) (g : nat) (target_lang : string) (chunk_sec pause_sec : nat)
    (tts_engine_choice : string) : M LoopStatus :=
  match fuel with
  | O => mret StillRunning
  | S fuel' =>
      load_run g ≫= λ running : bool,
      if running then
        live_cycle target_lang chunk_sec pause_sec tts_engine_choice;;
        live_while fuel' g target_lang chunk_sec pause_sec tts_engine_choice
      else mret Returned
  end.

(** [with mic as source: body]: the stream is closed when the block is
    left, by its end or by an exception. *)
Definition closing_microphone (body : M LoopStatus) : M LoopStatus :=
  λ s, match body s with
       | (Ok StillRunning, s') => (Ok StillRunning, s')
       | (r, s') => (r, log (Invoke Microphone_exit []) s')
       end.

Definition with_microphone (body : M LoopStatus) : M LoopStatus :=
  extcall Microphone_enter [] (w_mic_enter w);;
  closing_microphone body.

(** [live_loop], run by a thread whose global [_live_flag] is the
    dictionary at [g]. *)
Definition live_loop (fuel : nat) (g : nat) (target_lang : string) (chunk_sec pause_sec : nat)
    (tts_engine_choice : string) : M LoopStatus :=
  try_except
    (extcall sr_Microphone [] (w_Microphone w);; mret true)
    (λ e, emit (st_error ("Microphone not available: " +:+ exn_str e));;
          store_run g false;;
          mret false)   (* return *)
  ≫= λ acquired : bool,
  if acquired then
    with_microphone
      (extcall adjust_for_ambient_noise [] (w_adjust w);;
       live_while fuel g target_lang chunk_sec pause_sec tts_engine_choice)
  else mret Returned.

End Live.

(** ** The live controls of one run of the script (lines 356-357, 423-433)

    Streamlit executes the script from its first line to its last on every
    interaction; a button reads true only in the run its click started.
    The assignments of lines 356-357 are therefore executed in every run,
    before the two handlers.  Each run has a namespace of its own, so a
    thread goes on reading the dictionary of the run that started it. *)

Record Clicks := mkClicks {
  live_mode : bool;          (* the checkbox of line 192 *)
  start_clicked : bool;      (* st.button("Start live translation") *)
  stop_clicked : bool        (* st.button("Stop live translation") *)
}.

(** [_live_flag = {'run': False}]: a new dictionary. *)
Definition new_live_flag : M nat :=
  λ s, (Ok (length (flags s)), mkState (trace s) (flags s ++ [false])).

(** Lines 426-430, with [_live_flag] bound to the dictionary at [g]. *)
Definition start_handler (g : nat) (clicked : bool) : M unit :=
  λ s, if clicked && negb (get_flag g s) then
         (store_run g true;;
          emit (Thread_start_live g);;
          emit (st_success "Live translation started — speak into your microphone.")) s
       else (Ok tt, s).

(** Lines 431-433. *)
Definition stop_handler (g : nat) (clicked : bool) : M unit :=
  λ s, if clicked && get_flag g s then
         (store_run g false;;
          emit (st_success "Stopping live translation — please wait a moment.")) s
       else (Ok tt, s).

Definition live_controls (ui : Clicks) : M unit :=
  g ← new_live_flag;
  if live_mode ui then
    start_handler g (start_clicked ui);;
    stop_handler g (stop_clicked ui)
  else mret tt.

(** The script run once per interaction, in order. *)
Fixpoint script_runs (uis : list Clicks) : M unit :=
  match uis with
  | [] => mret tt
  | ui :: rest => live_controls ui;; script_runs rest
  end.

(** The live-loop threads started so far, by the dictionary each one reads. *)
Fixpoint live_threads (h : History) : list nat :=
  match h with
  | [] => []
  | Thread_start_live g :: h' => g :: live_threads h'
  | _ :: h' => live_threads h'
  end.

(** The loops still cycling: their flag reads true. *)
Definition active_loops (s : State) : list nat :=
  filter (λ g, get_flag g s = true) (live_threads (trace s)).

(** ** Observations on traces *)

(** How many times an external operation was invoked. *)
Fixpoint call_count (api : Api) (h : History) : nat :=
  match h with
  | [] => 0
  | Invoke a _ :: h' => (if decide (a = api) then 1 else 0) + call_count api h'
  | _ :: h' => call_count api h'
  end.

(** The events speech-to-text may produce: warnings and calls of the
    transcription libraries. *)
Definition stt_event (ev : Event) : bool :=
  match ev with
  | st_warning _ => true
  | Invoke AudioFile_record _ | Invoke recognize_google _
  | Invoke whisper_load_model _ | Invoke whisper_transcribe _ => true
  | _ => false
  end.

(** The operations of the translation and synthesis backends. *)
Definition downstream_apis : list Api :=
  [GoogleTranslator_translate; gTTS_create; gTTS_save;
   pyttsx3_init; pyttsx3_save_to_file; pyttsx3_runAndWait].

(** A computation that returns whatever the state and the oracles are. *)
Definition never_raises {A} (m : M A) : Prop :=
  ∀ s, ∃ a s', m s = (Ok a, s').

(** ** Concrete worlds *)

Definition initial : State := mkState [] [].

(** A world in which every library answers, with the given answers for
    the calls the scenarios vary. *)
Definition scripted_world (whisper pyttsx3 : bool)
    (read : string → Result AudioData)
    (google : Result string)
    (whisper_text : Result (option string))
    (translation : Result string)
    (detection : Result string)
    (microphone : Result unit)
    (chunk : History → Result AudioData) : World :=
  {| has_whisper := whisper;
     has_pyttsx3 := pyttsx3;
     tempdir := "/tmp";
     w_time := λ _, 1700000000%N;
     w_AudioFile_record := λ _ p, read p;
     w_recognize_google := λ _ _, google;
     w_load_model := λ _ _, Ok 0;
     w_transcribe := λ _ _ _, whisper_text;
     w_translate := λ _ _ _, translation;
     w_detect := λ _ _, detection;
     w_gTTS := λ _ _ _, Ok tt;
     w_gTTS_save := λ _ _, Ok tt;
     w_pyttsx3_init := λ _, Ok tt;
     w_save_to_file := λ _ _ _, Ok tt;
     w_runAndWait := λ _, Ok tt;
     w_from_file := λ _ _, Ok [];
     w_export := λ _ _ _, Ok tt;
     w_Microphone := λ _, microphone;
     w_mic_enter := λ _, Ok tt;
     w_adjust := λ _, Ok tt;
     w_mic_record := λ h _, chunk h;
     w_tempfile := λ _ _, Ok "/tmp/tmpchunk.wav";
     w_write_wav := λ _ _ _, Ok tt;
     w_concurrent_stop := λ _, false |}.

Definition readable : string → Result AudioData := λ _, Ok [].

(** A file reader that takes WAV files only ([sr.AudioFile] reads WAV,
    AIFF and FLAC; the uploader of the script also lets MP3, M4A and OGG
    through). *)
Definition wav_only (p : string) : Result AudioData :=
  if String.eqb (String.substring (String.length p - 4) 4 p) ".wav" then Ok []
  else Raise (Exception "Audio file could not be read as PCM WAV, AIFF/AIFF-C, or Native FLAC").

(** Everything works: the speaker says hello. *)
Definition calm_world : World :=
  scripted_world true true readable (Ok "hello") (Ok (Some "hello")) (Ok "hola") (Ok "en")
    (Ok tt) (λ _, Ok []).

(** Silence: the recognizer understands nothing. *)
Definition silent_world : World :=
  scripted_world true true readable (Raise UnknownValueError) (Ok (Some "")) (Ok "hola") (Ok "en")
    (Ok tt) (λ _, Ok []).

(** No network: recognition, translation and language detection fail. *)
Definition offline_world : World :=
  scripted_world false true readable (Raise (Exception "recognition connection failed"))
    (Ok None) (Raise (Exception "no route to host")) (Raise (Exception "No features in text."))
    (Ok tt) (λ _, Ok []).

(** Recognition works, the translation service does not. *)
Definition untranslated_world : World :=
  scripted_world true true readable (Ok "hello") (Ok (Some "hello"))
    (Raise (Exception "no route to host")) (Ok "en") (Ok tt) (λ _, Ok []).

(** Uploads in a format the recognizer's file reader rejects. *)
Definition picky_world : World :=
  scripted_world true true wav_only (Ok "hello") (Ok (Some "hello")) (Ok "hola") (Ok "en")
    (Ok tt) (λ _, Ok []).

(** No microphone. *)
Definition deaf_world : World :=
  scripted_world true true readable (Ok "hello") (Ok (Some "hello")) (Ok "hola") (Ok "en")
    (Raise (Exception "No Default Input Device Available")) (λ _, Ok []).

(** The microphone stream breaks during the first capture only. *)
Definition glitch_world : World :=
  scripted_world true true readable (Ok "hello") (Ok (Some "hello")) (Ok "hola") (Ok "en")
    (Ok tt)
    (λ h, if call_count Microphone_record h =? 0 then Raise (Exception "Stream closed") else Ok []).

(** [w] with a microphone whose stream answers [enter] when it is opened
    and [adjust] when it is calibrated. *)
Definition with_stream (w : World) (enter adjust : Result unit) : World :=
  {| has_whisper := has_whisper w;
     has_pyttsx3 := has_pyttsx3 w;
     tempdir := tempdir w;
     w_time := w_time w;
     w_AudioFile_record := w_AudioFile_record w;
     w_recognize_google := w_recognize_google w;
     w_load_model := w_load_model w;
     w_transcribe := w_transcribe w;
     w_translate := w_translate w;
     w_detect := w_detect w;
     w_gTTS := w_gTTS w;
     w_gTTS_save := w_gTTS_save w;
     w_pyttsx3_init := w_pyttsx3_init w;
     w_save_to_file := w_save_to_file w;
     w_runAndWait := w_runAndWait w;
     w_from_file := w_from_file w;
     w_export := w_export w;
     w_Microphone := w_Microphone w;
     w_mic_enter := λ _, enter;
     w_adjust := λ _, adjust;
     w_mic_record := w_mic_record w;
     w_tempfile := w_tempfile w;
     w_write_wav := w_write_wav w;
     w_concurrent_stop := w_concurrent_stop w |}.

(** The microphone is listed, but another program holds it: [sr.Microphone()]
    returns and the stream cannot be opened. *)
Definition busy_world : World :=
  with_stream calm_world (Raise (Exception "[Errno -9985] Device unavailable")) (Ok tt).

(** The stream opens and breaks while the noise level is measured. *)
Definition unplugged_world : World :=
  with_stream calm_world (Ok tt) (Raise (Exception "[Errno -9988] Stream closed")).

Definition google_cfg : Settings := mkSettings "Google Web Speech (online)" true.
Definition whisper_cfg : Settings := mkSettings "Whisper (local, optional)" true.

(** A field of the record a run of [process_single_file] returned, if it
    returned one. *)
Definition result_field (key : string) (r : Result (gmap string PyVal) * State)
    : option PyVal :=
  match r.1 with
  | Ok res => res !! key
  | Raise _ => None
  end.

(** The dictionary returned at line 257. *)
Definition stt_failed_record : gmap string PyVal :=
  <["error" := PyStr "STT failed or empty"]>
    (<["source_text" := PyStr ""]> (<["translated" := PyStr ""]> ∅)).

(** A computation that leaves every [_live_flag] dictionary as it was. *)
Definition keeps_flags {A} (m : M A) : Prop :=
  ∀ s r s', m s = (r, s') → flags s' = flags s.

(** Under the Google backend, [sr.AudioFile] can read each of the inputs
    (the Whisper backend is handed the path and reads the file itself). *)
Definition files_readable (w : World) (cfg : Settings) (inputs : list string) : Prop :=
  String.prefix "Google" (stt_backend cfg) = true →
  ∀ h audio_path, audio_path ∈ inputs → ∃ audio, w_AudioFile_record w h audio_path = Ok audio.

(** ** The language menu (lines 63-80)

    Strings are sequences of UTF-8 bytes: the dash of the labels is three
    bytes long, and the white space [str.strip] removes is given by its
    encodings. *)

(** The dictionary [LANGUAGES], in insertion order. *)
Definition LANGUAGES : list (string * string) :=
  [("English", "en"); ("Hindi", "hi"); ("Marathi", "mr"); ("Spanish", "es"); ("French", "fr");
   ("German", "de"); ("Chinese (Simplified)", "zh-cn"); ("Japanese", "ja"); ("Russian", "ru");
   ("Arabic", "ar"); ("Portuguese", "pt"); ("Bengali", "bn"); ("Urdu", "ur"); ("Punjabi", "pa")].

Definition em_dash : string := "—".

(** One label [f"{name} — {code}"]. *)
Definition lang_option (name code : string) : string :=
  name +:+ " " +:+ em_dash +:+ " " +:+ code.

Definition LANG_OPTIONS : list string :=
  map (λ entry, lang_option entry.1 entry.2) LANGUAGES.

(** [s.split('—')] *)
Fixpoint split_dash (s : string) : list string :=
  match s with
  | EmptyString => [""]
  | String c rest =>
      if String.prefix em_dash s then
        "" :: match rest with
              | String _ (String _ rest') => split_dash rest'
              | _ => [""]
              end
      else match split_dash rest with
           | seg :: segs => String c seg :: segs
           | [] => [String c ""]
           end
  end.

Fixpoint contains_dash (s : string) : bool :=
  match s with
  | EmptyString => false
  | String _ rest => String.prefix em_dash s || contains_dash rest
  end.

(** The characters for which [str.isspace] holds: U+0009-000D, U+001C-0020,
    U+0085, U+00A0, U+1680, U+2000-200A, U+2028, U+2029, U+202F, U+205F and
    U+3000, each by its UTF-8 bytes. *)
Definition whitespace : list (list ascii) :=
  map (map ascii_of_nat)
    ([[9]; [10]; [11]; [12]; [13]; [28]; [29]; [30]; [31]; [32];
      [194; 133]; [194; 160]; [225; 154; 128]]
     ++ map (λ b, [226; 128; b]) [128; 129; 130; 131; 132; 133; 134; 135; 136; 137; 138]
     ++ [[226; 128; 168]; [226; 128; 169]; [226; 128; 175]; [226; 129; 159]; [227; 128; 128]]).

Fixpoint strip_prefix (p l : list ascii) : option (list ascii) :=
  match p, l with
  | [], _ => Some l
  | a :: p', b :: l' => if decide (a = b) then strip_prefix p' l' else None
  | _ :: _, [] => None
  end.

(** The text without its first character, when that is one of [table]. *)
Fixpoint drop_first_of (table : list (list ascii)) (l : list ascii) : option (list ascii) :=
  match table with
  | [] => None
  | p :: table' =>
      match strip_prefix p l with
      | Some l' => Some l'
      | None => drop_first_of table' l
      end
  end.

Fixpoint lstrip_of (table : list (list ascii)) (fuel : nat) (l : list ascii) : list ascii :=
  match fuel with
  | O => l
  | S fuel' =>
      match drop_first_of table l with
      | Some l' => lstrip_of table fuel' l'
      | None => l
      end
  end.

(** [s.strip()]: leading white space goes, then trailing white space, read
    from the end. *)
Definition py_strip (s : string) : string :=
  let l := String.list_ascii_of_string s in
  let l1 := lstrip_of whitespace (length l) l in
  let l2 := lstrip_of (map (@rev ascii) whitespace) (length l1) (rev l1) in
  String.string_of_list_ascii (rev l2).

Definition starts_with_space (s : string) : bool :=
  bool_decide (is_Some (drop_first_of whitespace (String.list_ascii_of_string s))).

Definition ends_with_space (s : string) : bool :=
  bool_decide (is_Some (drop_first_of (map (@rev ascii) whitespace)
                          (rev (String.list_ascii_of_string s)))).

(** [translate_choice.split('—')[-1].strip()] (line 80) *)
Definition translate_target_of (translate_choice : string) : string :=
  py_strip (List.last (split_dash translate_choice) "").

(** A computation that only adds events accepted by [P] to the trace. *)
Definition emits_only {A} (P : Event → bool) (m : M A) : Prop :=
  ∀ s r s', m s = (r, s') → ∃ added, trace s' = trace s ++ added ∧ Forall (λ ev, P ev = true) added.

(** Any event but a call of [api]. *)
Definition not_call (api : Api) (ev : Event) : bool :=
  match ev with
  | Invoke a _ => negb (bool_decide (a = api))
  | _ => true
  end.

(** The path of line 267, from the reading of the clock. *)
Definition translated_path (w : World) (t : N) : string :=
  path_join (tempdir w) ("translated_" +:+ pretty t +:+ ".mp3").

(** The synthesis block of lines 268-281. *)
Definition synthesis_step (w : World) (tts_engine_choice translated target_lang out_path : string)
    : M PyVal :=
  if String.eqb tts_engine_choice "gTTS (online)" then
    tts_gtts_and_save w translated target_lang out_path
  else
    let wav_path := replace_mp3_wav out_path in
    tts_file ← tts_pyttsx3_and_save w translated wav_path;
    convert_to_mp3 w wav_path out_path tts_file.

(** ** The rest of the page (lines 176-181, 225-242, 292-352)

    The handlers below also show widgets and call operations that the
    pipeline functions never use; these are recorded in a log of the page,
    next to the state of the pipeline.  [st.audio(path)] reads the file at
    [path] when it is called, and raises when it cannot: it is a call of
    the host, like [os.replace].

    The header of one result (lines 334-335) is [st.markdown] of an
    f-string that interpolates [idx+1] and [os.path.basename(path)].  The
    source breaks the literal of that f-string across two lines, so its
    text is not given here: the entry [file_header] of the log records the
    two interpolated values and nothing else. *)

Inductive PageEvent :=
| file_header (number : nat) (name : string)
| st_subheader (body : string)
| st_info (body : string)
| st_audio (path : string)
| call_listen (phrase_time_limit : nat)      (* r.listen(source, timeout=5, ...) *)
| call_play                                  (* pydub.playback.play(audio) *)
| call_os_replace (src dst : string).        (* os.replace(src, dst) *)

#[global] Instance PageEvent_eq_dec : EqDecision PageEvent.
Proof. solve_decision. Defined.

Record Page := mkPage {
  core : State;
  page_log : list PageEvent
}.

(** The host of the script: working directory, microphone listening,
    playback, file moves and the reading of a file for its player. *)
Record Host := mkHost {
  h_getcwd : string;
  h_listen : History → list PageEvent → nat → Result AudioData;
  h_play : History → list PageEvent → AudioData → Result unit;
  h_replace : History → list PageEvent → string → string → Result unit;
  h_audio : History → list PageEvent → string → Result unit
}.

Definition P (A : Type) : Type := Page → Result A * Page.

Definition retP {A} (a : A) : P A := λ pg, (Ok a, pg).

Definition bindP {A B} (m : P A) (k : A → P B) : P B :=
  λ pg, match m pg with
        | (Ok a, pg') => k a pg'
        | (Raise e, pg') => (Raise e, pg')
        end.

#[global] Instance P_ret : MRet P := @retP.
#[global] Instance P_bind : MBind P := λ A B k m, bindP m k.

Definition try_exceptP {A} (m : P A) (h : Exn → P A) : P A :=
  λ pg, match m pg with
        | (Ok a, pg') => (Ok a, pg')
        | (Raise e, pg') => h e pg'
        end.

(** [try: m  finally: cleanup] *)
Definition finallyP {A} (m : P A) (cleanup : P unit) : P A :=
  λ pg, match m pg with
        | (r, pg') => (r, (cleanup pg').2)
        end.

(** A pipeline computation run on the page. *)
Definition lift {A} (m : M A) : P A :=
  λ pg, match m (core pg) with
        | (r, s') => (r, mkPage s' (page_log pg))
        end.

Definition show (ev : PageEvent) : P unit :=
  λ pg, (Ok tt, mkPage (core pg) (page_log pg ++ [ev])).

Definition hostcall {A} (ev : PageEvent) (oracle : History → list PageEvent → Result A) : P A :=
  λ pg, (oracle (trace (core pg)) (page_log pg), mkPage (core pg) (page_log pg ++ [ev])).

(** [os.path.basename(p)] (POSIX): what follows the last slash. *)
Fixpoint after_last_slash (p : string) : option string :=
  match p with
  | EmptyString => None
  | String c rest =>
      match after_last_slash rest with
      | Some name => Some name
      | None => if Ascii.eqb c "/" then Some rest else None
      end
  end.

Definition basename (p : string) : string := default p (after_last_slash p).

(** [res.get(key)] *)
Definition res_get (res : gmap string PyVal) (key : string) : PyVal :=
  default PyNone (res !! key).

(** What the sidebar, the input column and the buttons hold in one run of
    the script.  [in_uploaded] stands for [uploaded_paths] as lines 198-223
    leave it. *)
Record MainInputs := mkMainInputs {
  in_mode : string;                 (* input_mode *)
  in_live_mode : bool;
  in_typed_text : string;
  in_uploaded : list string;
  in_dur : nat;
  in_record_clicked : bool;         (* st.button("Start recording") *)
  in_run_clicked : bool;            (* st.button("Run Translation Pipeline") *)
  in_save_output : bool;
  in_translate_target : string;
  in_tts_choice : string
}.

Section PageHandlers.

Variable w : World.
Variable cfg : Settings.
Variable host : Host.

(** Lines 176-181. *)
Definition play_audio_file (path : string) : P unit :=
  try_exceptP
    (audio ← lift (extcall AudioSegment_from_file [path] (λ h, w_from_file w h path));
     hostcall call_play (λ h l, h_play host h l audio))
    (λ e, lift (emit (st_warning ("Audio playback error: " +:+ exn_str e
                                  +:+ ". File saved at " +:+ path)))).

(** [st.audio(path)] *)
Definition show_audio (path : string) : P unit :=
  hostcall (st_audio path) (λ h l, h_audio host h l path).

(** Lines 230-242: the value [recorded_tempfile] has afterwards. *)
Definition record_from_microphone (dur : nat) : P (option string) :=
  try_exceptP
    (lift (extcall sr_Microphone [] (w_Microphone w));;
     lift (extcall Microphone_enter [] (w_mic_enter w));;
     audio ← finallyP
               (lift (extcall adjust_for_ambient_noise [] (w_adjust w));;
                hostcall (call_listen dur) (λ h l, h_listen host h l dur))
               (lift (emit (Invoke Microphone_exit [])));
     tf ← lift (extcall NamedTemporaryFile [".wav"] (λ h, w_tempfile w h ".wav"));
     lift (extcall write_wav_data [tf] (λ h, w_write_wav w h tf audio));;
     lift (emit (st_success "Recorded audio saved"));;
     show_audio tf;;
     mret (Some tf))
    (λ e, lift (emit (st_error ("Recording failed: " +:+ exn_str e)));; mret None).

(** Lines 312-317 and 346-352: the move into the working directory, whose
    failure is passed over. *)
Definition save_to_working_dir (tts_file : string) (saved : string → string) : P unit :=
  let dest := path_join (h_getcwd host) (basename tts_file) in
  try_exceptP
    (hostcall (call_os_replace tts_file dest) (λ h l, h_replace host h l tts_file dest);;
     lift (emit (st_success (saved dest))))
    (λ _, mret tt).

(** Lines 296-317.  The player of line 311 is outside the [try] of line
    313. *)
Definition translate_typed_text (typed_text translate_target tts_choice : string)
    (save_output : bool) : P unit :=
  if String.eqb typed_text "" then lift (emit (st_error "Type text or provide audio."))
  else
    translated ← lift (translate_text w typed_text translate_target);
    show (st_subheader "Translated");;
    lift (emit (st_write translated));;
    t ← lift (now w);
    let filename := "translated_" +:+ pretty t +:+ ".mp3" in
    let out_path := path_join (tempdir w) filename in
    tts_file ← lift (if String.prefix "gTTS" tts_choice then
                       tts_gtts_and_save w translated translate_target out_path
                     else
                       tts_pyttsx3_and_save w translated (replace_mp3_wav out_path));
    if truthy tts_file then
      show_audio (py_str tts_file);;
      if save_output then
        save_to_working_dir (py_str tts_file) (λ _, "Saved TTS file to working dir")
      else mret tt
    else mret tt.

(** Lines 336-352: what the loop shows of one result under its header.
    The player of line 345 is outside the [try] of line 347. *)
Definition show_result_body (save_output : bool) (res : gmap string PyVal) : P unit :=
  if truthy (res_get res "error") then
    lift (emit (st_error (py_str (res_get res "error"))))
  else
    lift (emit (st_write "Detected language:"));;
    lift (emit (st_write (py_str (res_get res "detected_lang"))));;
    lift (emit (st_write "Source text:"));;
    lift (emit (st_write (py_str (res_get res "source_text"))));;
    lift (emit (st_write "Translated:"));;
    lift (emit (st_write (py_str (res_get res "translated"))));;
    if truthy (res_get res "tts_file") then
      show_audio (py_str (res_get res "tts_file"));;
      if save_output then
        save_to_working_dir (py_str (res_get res "tts_file")) (λ dest, "Saved TTS to " +:+ dest)
      else mret tt
    else mret tt.

(** Lines 334-352, for one result. *)
Definition show_result (save_output : bool) (idx : nat) (path : string)
    (res : gmap string PyVal) : P unit :=
  show (file_header (idx + 1) (basename path));;
  show_result_body save_output res.

(** [for idx, (path, res) in enumerate(results): ...] *)
Fixpoint show_results (save_output : bool) (idx : nat)
    (results : list (string * gmap string PyVal)) : P unit :=
  match results with
  | [] => mret tt
  | (path, res) :: rest =>
      show_result save_output idx path res;;
      show_results save_output (S idx) rest
  end.

(** Lines 318-352. *)
Definition translate_audio_inputs (recorded_tempfile : option string)
    (uploaded_paths : list string) (translate_target tts_choice : string) (save_output : bool)
    : P (list (string * gmap string PyVal)) :=
  inputs ← lift (collect_inputs recorded_tempfile uploaded_paths);
  match inputs with
  | [] => mret []
  | _ :: _ =>
      results ← lift (run_batch w cfg inputs translate_target tts_choice);
      show_results save_output 0 results;;
      mret results
  end.

(** One run of the script from the input column to the end of the batch
    block (lines 195-352), the upload widgets apart: [recorded_tempfile]
    and [uploaded_paths] start empty in every run. *)
Definition script_main (ui : MainInputs) : P (list (string * gmap string PyVal)) :=
  let uploaded_paths :=
    if String.eqb (in_mode ui) "Upload audio file(s)" then in_uploaded ui else [] in
  (if String.eqb (in_mode ui) "Upload audio file(s)" then mret None
   else if String.eqb (in_mode ui) "Record from microphone" then
     show (st_info "Recording uses your microphone via PyAudio. If you have trouble, record externally and upload the file.");;
     if in_record_clicked ui then record_from_microphone (in_dur ui) else mret None
   else mret None)
  ≫= λ recorded_tempfile : option string,
  if in_run_clicked ui && negb (in_live_mode ui) then
    if String.eqb (in_mode ui) "Type text manually (skip STT)" then
      translate_typed_text (in_typed_text ui) (in_translate_target ui) (in_tts_choice ui)
        (in_save_output ui);;
      mret []
    else
      translate_audio_inputs recorded_tempfile uploaded_paths (in_translate_target ui)
        (in_tts_choice ui) (in_save_output ui)
  else mret [].

End PageHandlers.

Definition blank_page : Page := mkPage initial [].

(** A host on which everything works. *)
Definition kind_host : Host :=
  mkHost "/home/user/app" (λ _ _ _, Ok []) (λ _ _ _, Ok tt) (λ _ _ _ _, Ok tt) (λ _ _ _, Ok tt).

(** A host whose working directory cannot be written to and whose
    loudspeaker is missing. *)
Definition harsh_host : Host :=
  mkHost "/readonly" (λ _ _ _, Raise (Exception "listening timed out"))
    (λ _ _ _, Raise (Exception "no audio device"))
    (λ _ _ _ _, Raise (Exception "Permission denied"))
    (λ _ _ _, Ok tt).

(** A host on which the files handed to a player are not there. *)
Definition bare_host : Host :=
  mkHost "/home/user/app" (λ _ _ _, Ok []) (λ _ _ _, Ok tt) (λ _ _ _ _, Ok tt)
    (λ _ _ path, Raise (Exception ("Error opening '" +:+ path +:+ "'"))).

(** A page computation that returns whatever the page, the oracles and
    the host are. *)
Definition never_raisesP {A} (m : P A) : Prop :=
  ∀ pg, ∃ a pg', m pg = (Ok a, pg').

(** How many entries of a page log satisfy [Q]. *)
Definition page_count (Q : PageEvent → bool) (l : list PageEvent) : nat :=
  length (List.filter Q l).

Definition is_audio (ev : PageEvent) : bool :=
  match ev with st_audio _ => true | _ => false end.

Definition is_replace (ev : PageEvent) : bool :=
  match ev with call_os_replace _ _ => true | _ => false end.

(** A result for which the display loop shows a player: no error, and an
    audio file. *)
Definition playable (res : gmap string PyVal) : bool :=
  negb (truthy (res_get res "error")) && truthy (res_get res "tts_file").

(** * Properties *)

(** ** Reasoning about computations *)

Ltac mrun :=
  unfold mbind, M_bind, mret, M_ret, bind, ret, try_except, emit, extcall,
    store_run in *;
  simpl in *.

Section MonadFacts.

Context {A B : Type}.

Lemma never_raises_ret (a : A) : never_raises (mret a : M A).
Proof. intros s. by exists a, s. Qed.

Lemma never_raises_bind (m : M A) (k : A → M B) :
  never_raises m → (∀ a, never_raises (k a)) → never_raises (m ≫= k).
Proof.
  intros Hm Hk s. destruct (Hm s) as (a & s1 & E).
  destruct (Hk a s1) as (b & s2 & E2).
  exists b, s2. mrun. by rewrite E.
Qed.

Lemma never_raises_try (m : M A) (h : Exn → M A) :
  (∀ e, never_raises (h e)) → never_raises (try_except m h).
Proof.
  intros Hh s. unfold try_except.
  destruct (m s) as [[a | e] s1]; [by exists a, s1 | apply Hh].
Qed.

Lemma never_raises_if (c : bool) (m1 m2 : M A) :
  never_raises m1 → never_raises m2 → never_raises (if c then m1 else m2).
Proof. by destruct c. Qed.

End MonadFacts.

Lemma never_raises_emit (ev : Event) : never_raises (emit ev).
Proof. intros s. by exists tt, (log ev s). Qed.

Lemma never_raises_store_run (g : nat) (b : bool) : never_raises (store_run g b).
Proof. intros s. by exists tt, (set_flag g b s). Qed.

Create HintDb total discriminated.
#[local] Hint Resolve never_raises_emit never_raises_store_run : total.
#[local] Hint Extern 1 (never_raises (mret _)) => apply never_raises_ret : total.
#[local] Hint Extern 2 (never_raises (_ ≫= _)) => apply never_raises_bind; [| intros ?] : total.
#[local] Hint Extern 2 (never_raises (try_except _ _)) => apply never_raises_try; intros ? : total.
#[local] Hint Extern 2 (never_raises (if _ then _ else _)) => apply never_raises_if : total.
#[local] Hint Extern 3 (never_raises (match ?e with _ => _ end)) => destruct e : total.

Lemma call_count_app (api : Api) (h1 h2 : History) :
  call_count api (h1 ++ h2) = call_count api h1 + call_count api h2.
Proof.
  induction h1 as [| ev h1 IH]; [done |].
  destruct ev; simpl; rewrite ?IH; lia.
Qed.

Lemma call_count_stt_events (api : Api) (h : History) :
  api ∈ downstream_apis → Forall (λ ev, stt_event ev = true) h → call_count api h = 0.
Proof.
  intros Hapi. induction 1 as [| ev h Hev _ IH]; [done |].
  destruct ev as [| | | | a args | | |]; simpl in *; try done.
  destruct a; try done; case_decide; subst; try done;
    by repeat (apply elem_of_cons in Hapi as [? | Hapi]; [done |]); apply elem_of_nil in Hapi.
Qed.

(** ** The steps never let a backend failure escape *)

Section Steps.

Variable w : World.
Variable cfg : Settings.

Lemma recognize_with_whisper_total (audio_path : string) :
  never_raises (recognize_with_whisper w audio_path).
Proof.
  unfold recognize_with_whisper. destruct (has_whisper w); simpl; auto with total.
Qed.

Lemma translate_text_total (text target_lang : string) :
  never_raises (translate_text w text target_lang).
Proof. unfold translate_text. auto with total. Qed.

Lemma detect_language_total (text : string) : never_raises (detect_language w text).
Proof. unfold detect_language. auto with total. Qed.

Lemma tts_gtts_and_save_total (text lang out_path : string) :
  never_raises (tts_gtts_and_save w text lang out_path).
Proof. unfold tts_gtts_and_save. auto with total. Qed.

Lemma tts_pyttsx3_and_save_total (text out_path : string) :
  never_raises (tts_pyttsx3_and_save w text out_path).
Proof. unfold tts_pyttsx3_and_save. destruct (has_pyttsx3 w); simpl; auto with total. Qed.

Lemma convert_to_mp3_total (wav_path out_path : string) (tts_file : PyVal) :
  never_raises (convert_to_mp3 w wav_path out_path tts_file).
Proof. unfold convert_to_mp3. auto with total. Qed.

Lemma now_total : never_raises (now w).
Proof. intros s. unfold now, extcall. eauto. Qed.

End Steps.

#[local] Hint Resolve recognize_with_whisper_total translate_text_total detect_language_total
  tts_gtts_and_save_total tts_pyttsx3_and_save_total convert_to_mp3_total now_total : total.

(** ** Speech to text (lines 104-128) *)

Section SpeechToText.

Variable w : World.
Variable cfg : Settings.

(** What [recognize_with_google] does, by the answers of the file reader
    and of the recognizer. *)
Lemma recognize_with_google_unfold (audio_path : string) (s : State) :
  recognize_with_google w audio_path s =
    let s1 := log (Invoke AudioFile_record [audio_path]) s in
    match w_AudioFile_record w (trace s) audio_path with
    | Raise e => (Raise e, s1)
    | Ok audio =>
        let s2 := log (Invoke recognize_google []) s1 in
        match w_recognize_google w (trace s1) audio with
        | Ok text => (Ok text, s2)
        | Raise UnknownValueError => (Ok "", s2)
        | Raise (Exception msg) => (Ok "", log (st_warning ("Google STT error: " +:+ msg)) s2)
        end
    end.
Proof.
  unfold recognize_with_google. mrun.
  destruct (w_AudioFile_record w (trace s) audio_path) as [audio | e]; [| done].
  by destruct (w_recognize_google w _ audio) as [text | [| msg]].
Qed.

(** Speech to text adds only warnings and calls of the transcription
    libraries to the trace, and leaves the flags alone. *)
Lemma speech_to_text_events (audio_file : string) (s s1 : State) (r : Result string) :
  speech_to_text w cfg audio_file s = (r, s1) →
  ∃ added, trace s1 = trace s ++ added ∧ Forall (λ ev, stt_event ev = true) added
           ∧ flags s1 = flags s.
Proof.
  unfold speech_to_text. destruct (String.prefix _ _).
  - rewrite recognize_with_google_unfold. simpl.
    destruct (w_AudioFile_record w (trace s) audio_file) as [audio | e].
    + destruct (w_recognize_google w _ audio) as [text | [| msg]];
        intros [= <- <-]; simpl; rewrite <- ?app_assoc; eexists;
        (split; [reflexivity |]); split; try done; by repeat constructor.
    + intros [= <- <-]. simpl. eexists. split; [reflexivity |].
      split; [| done]. by repeat constructor.
  - unfold recognize_with_whisper. destruct (has_whisper w); simpl.
    + mrun. destruct (w_load_model w (trace s) _) as [model | e]; simpl.
      * destruct (w_transcribe w _ model audio_file) as [text | e];
          intros [= <- <-]; simpl; rewrite <- ?app_assoc; eexists;
          (split; [reflexivity |]); split; try done; by repeat constructor.
      * intros [= <- <-]; simpl; rewrite <- ?app_assoc; eexists;
          (split; [reflexivity |]); split; try done; by repeat constructor.
    + mrun. intros [= <- <-]. simpl. eexists. split; [reflexivity |].
      split; [| done]. by repeat constructor.
Qed.

Lemma speech_to_text_no_downstream (audio_file : string) (s s1 : State) (r : Result string)
    (api : Api) :
  speech_to_text w cfg audio_file s = (r, s1) →
  api ∈ downstream_apis →
  call_count api (trace s1) = call_count api (trace s).
Proof.
  intros (added & -> & Hadded & _)%speech_to_text_events Hapi.
  rewrite call_count_app, (call_count_stt_events api added); [lia | done | done].
Qed.

End SpeechToText.

(** ** The record of one file (lines 249-289) *)

Section Record.

Variable w : World.
Variable cfg : Settings.

(** When transcription returns the empty text, the function returns at
    line 257. *)
Lemma process_single_file_empty (audio_file target_lang tts : string) (s s1 : State) :
  speech_to_text w cfg audio_file s = (Ok "", s1) →
  process_single_file w cfg audio_file target_lang tts s =
    (Ok (<["error" := PyStr "STT failed or empty"]>
           (<["source_text" := PyStr ""]> (<["translated" := PyStr ""]> ∅))), s1).
Proof. intros E. unfold process_single_file. mrun. by rewrite E. Qed.

(** Otherwise it runs to line 283, whatever the later backends do. *)
Lemma process_single_file_text (audio_file target_lang tts src_text : string) (s s1 : State) :
  speech_to_text w cfg audio_file s = (Ok src_text, s1) →
  src_text ≠ "" →
  ∃ detected translated tts_file s',
    process_single_file w cfg audio_file target_lang tts s =
      (Ok (<["error" := PyNone]>
             (<["source_text" := PyStr src_text]>
                (<["detected_lang" := detected]>
                   (<["translated" := PyStr translated]>
                      (<["tts_file" := tts_file]> ∅))))), s').
Proof.
  intros E Hne. unfold process_single_file.
  assert (String.eqb src_text "" = false) as Hf by by apply String.eqb_neq.
  assert (never_raises
    (if use_lang_detect cfg then detect_language w src_text else mret PyNone)) as Hd
    by auto with total.
  destruct (Hd s1) as (detected & s2 & E2).
  destruct (translate_text_total w src_text target_lang s2) as (translated & s3 & E3).
  destruct (now_total w s3) as (t & s4 & E4).
  set (out_path := path_join (tempdir w) ("translated_" +:+ pretty t +:+ ".mp3")).
  assert (never_raises
    (if String.eqb tts "gTTS (online)" then tts_gtts_and_save w translated target_lang out_path
     else tts_pyttsx3_and_save w translated (replace_mp3_wav out_path) ≫=
          convert_to_mp3 w (replace_mp3_wav out_path) out_path)) as Ht
    by auto with total.
  destruct (Ht s4) as (tts_file & s5 & E5).
  exists detected, translated, tts_file, s5.
  unfold mbind, M_bind, bind in *. rewrite E, Hf.
  unfold mbind, M_bind, bind in *. rewrite E2, E3, E4.
  fold out_path. by rewrite E5.
Qed.

End Record.

Section RecordClaims.

Variable w : World.
Variable cfg : Settings.

(** C1 (amended): for every audio input whose transcription yields the
    empty text, the record [process_single_file] returns is
    [{'error': 'STT failed or empty', 'source_text': '', 'translated': ''}]:
    its error field is that message, not [None], both texts are empty, and
    neither the translation backend nor a synthesis backend is invoked for
    the item. *)
Theorem silent_item_record (audio_file target_lang tts : string) (s s1 : State) :
  speech_to_text w cfg audio_file s = (Ok "", s1) →
  ∃ res, process_single_file w cfg audio_file target_lang tts s = (Ok res, s1)
    ∧ res !! "error" = Some (PyStr "STT failed or empty")
    ∧ res !! "source_text" = Some (PyStr "")
    ∧ res !! "translated" = Some (PyStr "")
    ∧ ∀ api, api ∈ downstream_apis → call_count api (trace s1) = call_count api (trace s).
Proof.
  intros E. eexists. split; [by apply process_single_file_empty |].
  repeat split; try done.
  intros api Hapi. by eapply speech_to_text_no_downstream.
Qed.

(** C10: once transcription has returned a text, [process_single_file]
    returns a record whose error field is not [None] exactly when that
    text is empty; the record is then
    [{'error': 'STT failed or empty', 'source_text': '', 'translated': ''}]
    and has neither a [tts_file] nor a [detected_lang] key. *)
Theorem error_field_iff_empty_transcript (audio_file target_lang tts src_text : string)
    (s s1 : State) :
  speech_to_text w cfg audio_file s = (Ok src_text, s1) →
  ∃ res s', process_single_file w cfg audio_file target_lang tts s = (Ok res, s')
    ∧ ((∃ v, res !! "error" = Some v ∧ v ≠ PyNone) ↔ src_text = "")
    ∧ (src_text = "" →
         res = stt_failed_record
         ∧ res !! "error" = Some (PyStr "STT failed or empty")
         ∧ res !! "source_text" = Some (PyStr "")
         ∧ res !! "translated" = Some (PyStr "")
         ∧ res !! "tts_file" = None
         ∧ res !! "detected_lang" = None).
Proof.
  intros E. destruct (decide (src_text = "")) as [-> | Hne].
  - exists stt_failed_record, s1. split; [by apply process_single_file_empty |].
    split; [| done].
    split; [done |]. intros _. by exists (PyStr "STT failed or empty").
  - destruct (process_single_file_text w cfg audio_file target_lang tts src_text s s1 E Hne)
      as (detected & translated & tts_file & s' & ->).
    eexists _, s'. split; [reflexivity |]. split; [| done].
    split; [| done]. intros (v & Hv & Hnone).
    rewrite lookup_insert_eq in Hv. congruence.
Qed.

End RecordClaims.

(** The state after transcribing a silent file with the Google backend. *)
Lemma silent_transcript :
  speech_to_text silent_world google_cfg "silence.wav" initial =
    (Ok "", mkState [Invoke AudioFile_record ["silence.wav"]; Invoke recognize_google []] []).
Proof. reflexivity. Qed.

Lemma silent_item_record_witness :
  ∃ res,
    process_single_file silent_world google_cfg "silence.wav" "es" "gTTS (online)" initial =
      (Ok res, mkState [Invoke AudioFile_record ["silence.wav"]; Invoke recognize_google []] [])
    ∧ res !! "error" = Some (PyStr "STT failed or empty")
    ∧ res !! "source_text" = Some (PyStr "")
    ∧ res !! "translated" = Some (PyStr "")
    ∧ ∀ api, api ∈ downstream_apis →
        call_count api [Invoke AudioFile_record ["silence.wav"]; Invoke recognize_google []] =
        call_count api [].
Proof.
  apply (silent_item_record silent_world google_cfg "silence.wav" "es" "gTTS (online)" initial
           (mkState [Invoke AudioFile_record ["silence.wav"]; Invoke recognize_google []] [])).
  reflexivity.
Defined.

(** C1 as stated fails: a silent file transcribes to the empty text, and
    the error field of its record is the message of line 257, not [None]. *)
Lemma silent_item_error_not_None :
  (speech_to_text silent_world google_cfg "silence.wav" initial).1 = Ok ""
  ∧ result_field "error"
      (process_single_file silent_world google_cfg "silence.wav" "es" "gTTS (online)" initial)
    = Some (PyStr "STT failed or empty")
  ∧ result_field "error"
      (process_single_file silent_world google_cfg "silence.wav" "es" "gTTS (online)" initial)
    ≠ Some PyNone.
Proof. by vm_compute. Qed.

Lemma error_field_iff_empty_transcript_witness :
  ∃ res s',
    process_single_file calm_world google_cfg "hello.wav" "es" "gTTS (online)" initial = (Ok res, s')
    ∧ ((∃ v, res !! "error" = Some v ∧ v ≠ PyNone) ↔ "hello" = "")
    ∧ ("hello" = "" →
         res = stt_failed_record
         ∧ res !! "error" = Some (PyStr "STT failed or empty")
         ∧ res !! "source_text" = Some (PyStr "")
         ∧ res !! "translated" = Some (PyStr "")
         ∧ res !! "tts_file" = None
         ∧ res !! "detected_lang" = None).
Proof.
  apply (error_field_iff_empty_transcript calm_world google_cfg "hello.wav" "es" "gTTS (online)"
           "hello" initial
           (mkState [Invoke AudioFile_record ["hello.wav"]; Invoke recognize_google []] [])).
  reflexivity.
Defined.

(** ** Translation and language detection (lines 131-146) *)

(** C3: with the empty text, [translate_text] returns the empty string and
    leaves the state as it was: the translation backend is not invoked. *)
Theorem translate_text_empty (w : World) (target_lang : string) (s : State) :
  translate_text w "" target_lang s = (Ok "", s)
  ∧ call_count GoogleTranslator_translate (trace (translate_text w "" target_lang s).2)
    = call_count GoogleTranslator_translate (trace s).
Proof. done. Qed.

(** With any other text the backend is invoked exactly once. *)
Lemma translate_text_invokes_backend (w : World) (text target_lang : string) (s : State) :
  text ≠ "" →
  call_count GoogleTranslator_translate (trace (translate_text w text target_lang s).2)
    = S (call_count GoogleTranslator_translate (trace s)).
Proof.
  intros Hne%String.eqb_neq. unfold translate_text. rewrite Hne. mrun.
  destruct (w_translate w (trace s) target_lang text); simpl;
    rewrite !call_count_app; simpl; lia.
Qed.

(** C4 (amended): when the language-detection backend raises,
    [detect_language] returns [None] and the exception goes no further. *)
Theorem detect_language_failure_is_None (w : World) (text : string) (s : State) (e : Exn) :
  w_detect w (trace s) text = Raise e →
  detect_language w text s = (Ok PyNone, log (Invoke langdetect_detect [text]) s).
Proof. intros E. unfold detect_language. mrun. by rewrite E. Qed.

Lemma detect_language_failure_is_None_witness :
  detect_language offline_world "hello" initial =
    (Ok PyNone, log (Invoke langdetect_detect ["hello"]) initial).
Proof.
  apply (detect_language_failure_is_None offline_world "hello" initial
           (Exception "No features in text.")).
  reflexivity.
Defined.

(** C4 as stated fails: the value returned on failure is [None], not the
    string ['unknown']. *)
Lemma detect_language_failure_not_unknown :
  w_detect offline_world (trace initial) "hello" = Raise (Exception "No features in text.")
  ∧ (detect_language offline_world "hello" initial).1 = Ok PyNone
  ∧ (detect_language offline_world "hello" initial).1 ≠ Ok (PyStr "unknown").
Proof. by vm_compute. Qed.

(** When the backend answers, its answer is returned. *)
Lemma detect_language_success (w : World) (text code : string) (s : State) :
  w_detect w (trace s) text = Ok code →
  detect_language w text s = (Ok (PyStr code), log (Invoke langdetect_detect [text]) s).
Proof. intros E. unfold detect_language. mrun. by rewrite E. Qed.

(** ** Speech synthesis (lines 149-173) *)

(** gTTS: the guard of line 150 returns [None] before anything is called. *)
Lemma tts_gtts_and_save_empty (w : World) (lang out_path : string) (s : State) :
  tts_gtts_and_save w "" lang out_path s = (Ok PyNone, s).
Proof. reflexivity. Qed.

(** pyttsx3 returns [None] at once only when the library is missing, and
    then with a warning. *)
Lemma tts_pyttsx3_and_save_missing (w : World) (text out_path : string) (s : State) :
  has_pyttsx3 w = false →
  tts_pyttsx3_and_save w text out_path s =
    (Ok PyNone,
     log (st_warning "pyttsx3 not installed. Install with `pip install pyttsx3` to use offline TTS.") s).
Proof. intros E. unfold tts_pyttsx3_and_save. by rewrite E. Qed.

(** With the library installed the engine is driven whatever the text is,
    the empty one included. *)
Lemma tts_pyttsx3_and_save_calls_engine (w : World) (text out_path : string) (s : State) :
  has_pyttsx3 w = true →
  call_count pyttsx3_init (trace (tts_pyttsx3_and_save w text out_path s).2)
    = S (call_count pyttsx3_init (trace s)).
Proof.
  intros E. unfold tts_pyttsx3_and_save. rewrite E. mrun.
  destruct (w_pyttsx3_init w (trace s)); simpl;
    [destruct (w_save_to_file w _ text out_path); simpl;
       [destruct (w_runAndWait w _); simpl |] |];
    rewrite !call_count_app; simpl; lia.
Qed.

(** C2: the empty text returns [None] without a backend call under gTTS
    ([tts_gtts_and_save_empty]), but not under pyttsx3, which has no such
    guard: given the empty text and a working engine,
    [tts_pyttsx3_and_save] initialises the engine, has it save the empty
    text and returns the path of the file. *)
Theorem pyttsx3_synthesizes_empty_text :
  tts_pyttsx3_and_save calm_world "" "/tmp/translated_1700000000.wav" initial =
    (Ok (PyStr "/tmp/translated_1700000000.wav"),
     mkState [Invoke pyttsx3_init [];
              Invoke pyttsx3_save_to_file [""; "/tmp/translated_1700000000.wav"];
              Invoke pyttsx3_runAndWait []] []).
Proof. reflexivity. Qed.

(** The pipeline does hand the empty text to pyttsx3: when the translation
    service fails, [translate_text] returns [''] and synthesis goes on. *)
Lemma empty_translation_reaches_pyttsx3 :
  let run := process_single_file untranslated_world google_cfg "hello.wav" "es"
               "pyttsx3 (offline)" initial in
  result_field "translated" run = Some (PyStr "")
  ∧ result_field "tts_file" run = Some (PyStr "/tmp/translated_1700000000.mp3")
  ∧ Invoke pyttsx3_save_to_file [""; "/tmp/translated_1700000000.wav"] ∈ trace run.2.
Proof.
  split; [by vm_compute |]. split; [by vm_compute |].
  vm_compute. do 7 apply list_elem_of_further. apply list_elem_of_here.
Qed.

(** ** Transcription failures *)

(** What the handlers of the two functions do catch.  Under the Whisper
    backend every audio input gives a text and no exception: a missing
    installation and any failure of the model, the reading of the file
    included, give the empty text and a warning.  Under the Google backend
    the handlers cover the recognizer only: once [sr.AudioFile] has read
    the file, unrecognized speech gives the empty text, any other failure
    of the recognizer gives the empty text and a warning. *)
Lemma transcription_failures_give_empty_text (w : World) (audio_path : string) (s : State) :
  (∃ text s', recognize_with_whisper w audio_path s = (Ok text, s'))
  ∧ (has_whisper w = false →
       recognize_with_whisper w audio_path s =
         (Ok "", log (st_warning
                        "Whisper not installed. Install 'whisper' package to use local Whisper.") s))
  ∧ (∀ e, has_whisper w = true →
       w_load_model w (trace s) "small" = Raise e
       ∨ (∃ model, w_load_model w (trace s) "small" = Ok model
            ∧ w_transcribe w (trace (log (Invoke whisper_load_model ["small"]) s)) model audio_path
              = Raise e) →
       ∃ s1, recognize_with_whisper w audio_path s =
               (Ok "", log (st_warning ("Whisper error: " +:+ exn_str e)) s1))
  ∧ (∀ audio, w_AudioFile_record w (trace s) audio_path = Ok audio →
       let s1 := log (Invoke AudioFile_record [audio_path]) s in
       let s2 := log (Invoke recognize_google []) s1 in
       (∃ text s', recognize_with_google w audio_path s = (Ok text, s'))
       ∧ (w_recognize_google w (trace s1) audio = Raise UnknownValueError →
            recognize_with_google w audio_path s = (Ok "", s2))
       ∧ (∀ msg, w_recognize_google w (trace s1) audio = Raise (Exception msg) →
            recognize_with_google w audio_path s =
              (Ok "", log (st_warning ("Google STT error: " +:+ msg)) s2))).
Proof.
  split; [apply recognize_with_whisper_total |].
  split; [intros E; unfold recognize_with_whisper; by rewrite E |].
  split.
  - intros e E [Hload | (model & Hload & Htr)]; unfold recognize_with_whisper;
      rewrite E; mrun; rewrite Hload; simpl; [by eexists |].
    rewrite Htr. by eexists.
  - intros audio Hread. simpl. rewrite recognize_with_google_unfold, Hread. simpl.
    split; [| split].
    + destruct (w_recognize_google w _ audio) as [text | [| msg]]; by eexists _, _.
    + by intros ->.
    + by intros msg ->.
Qed.

Lemma transcription_failures_give_empty_text_witness :
  recognize_with_google offline_world "hello.wav" initial =
    (Ok "",
     mkState [Invoke AudioFile_record ["hello.wav"]; Invoke recognize_google [];
              st_warning "Google STT error: recognition connection failed"] [])
  ∧ recognize_with_whisper offline_world "hello.wav" initial =
      (Ok "",
       mkState [st_warning
                  "Whisper not installed. Install 'whisper' package to use local Whisper."] []).
Proof.
  destruct (transcription_failures_give_empty_text offline_world "hello.wav" initial)
    as (_ & Hmissing & _ & Hgoogle).
  destruct (Hgoogle [] eq_refl) as (_ & _ & Hfailure).
  split; [apply (Hfailure "recognition connection failed" eq_refl) | apply (Hmissing eq_refl)].
Defined.

(** C5: the transcription step is to turn every failure into the empty
    text and a warning, and [recognize_with_google] does not: the file is
    read at lines 106-107, before the [try] of line 108.  On an MP3
    upload, which the uploader accepts and [sr.AudioFile] cannot read, the
    exception leaves the function without a warning, and leaves
    [process_single_file] with it. *)
Theorem unreadable_audio_aborts_transcription :
  recognize_with_google picky_world "talk.mp3" initial =
    (Raise (Exception "Audio file could not be read as PCM WAV, AIFF/AIFF-C, or Native FLAC"),
     mkState [Invoke AudioFile_record ["talk.mp3"]] [])
  ∧ process_single_file picky_world google_cfg "talk.mp3" "es" "gTTS (online)" initial =
    (Raise (Exception "Audio file could not be read as PCM WAV, AIFF/AIFF-C, or Native FLAC"),
     mkState [Invoke AudioFile_record ["talk.mp3"]] []).
Proof. split; reflexivity. Qed.

(** ** The batch loop (lines 327-331) *)

Section Batch.

Variable w : World.
Variable cfg : Settings.

Lemma speech_to_text_total (audio_file : string) :
  files_readable w cfg [audio_file] → never_raises (speech_to_text w cfg audio_file).
Proof.
  intros Hread s. unfold speech_to_text.
  destruct (String.prefix "Google" (stt_backend cfg)) eqn:Hg;
    [| apply recognize_with_whisper_total].
  destruct (Hread Hg (trace s) audio_file) as [audio Haudio]; [apply list_elem_of_here |].
  rewrite recognize_with_google_unfold, Haudio. simpl.
  destruct (w_recognize_google w _ audio) as [text | [| msg]]; by eexists _, _.
Qed.

Lemma process_single_file_total (audio_file target_lang tts : string) :
  files_readable w cfg [audio_file] →
  never_raises (process_single_file w cfg audio_file target_lang tts).
Proof.
  intros Hread s.
  destruct (speech_to_text_total audio_file Hread s) as (src_text & s1 & E).
  destruct (decide (src_text = "")) as [-> | Hne].
  - eexists _, _. by apply process_single_file_empty.
  - destruct (process_single_file_text w cfg audio_file target_lang tts src_text s s1 E Hne)
      as (detected & translated & tts_file & s' & ->).
    by eexists _, _.
Qed.

(** The list being built only grows at its end. *)
Lemma batch_loop_acc (inputs : list string) (target tts : string)
    (acc : list (string * gmap string PyVal)) (s : State) :
  batch_loop w cfg inputs target tts acc s =
    match batch_loop w cfg inputs target tts [] s with
    | (Ok results, s') => (Ok (acc ++ results), s')
    | (Raise e, s') => (Raise e, s')
    end.
Proof.
  revert acc s. induction inputs as [| audio_path rest IH]; intros acc s; simpl.
  - mrun. by rewrite app_nil_r.
  - unfold mbind, M_bind, bind.
    destruct (process_single_file w cfg audio_path target tts s) as [[res | e] s1]; [| done].
    rewrite (IH (acc ++ _)), (IH [_]).
    destruct (batch_loop w cfg rest target tts [] s1) as [[results | e] s2]; [| done].
    by rewrite <- app_assoc.
Qed.

Lemma run_batch_cons (audio_path : string) (rest : list string) (target tts : string)
    (s : State) :
  run_batch w cfg (audio_path :: rest) target tts s =
    match process_single_file w cfg audio_path target tts s with
    | (Ok res, s1) =>
        match run_batch w cfg rest target tts s1 with
        | (Ok results, s2) => (Ok ((audio_path, res) :: results), s2)
        | (Raise e, s2) => (Raise e, s2)
        end
    | (Raise e, s1) => (Raise e, s1)
    end.
Proof.
  unfold run_batch. simpl. unfold mbind, M_bind, bind.
  destruct (process_single_file w cfg audio_path target tts s) as [[res | e] s1]; [| done].
  by rewrite batch_loop_acc.
Qed.

Lemma files_readable_cons (audio_path : string) (rest : list string) :
  files_readable w cfg (audio_path :: rest) →
  files_readable w cfg [audio_path] ∧ files_readable w cfg rest.
Proof.
  intros Hread. split; intros Hg h p Hp; apply (Hread Hg).
  - apply elem_of_cons. left. by apply list_elem_of_singleton in Hp.
  - by apply list_elem_of_further.
Qed.

Lemma run_batch_items (inputs : list string) (target tts : string) (s : State) :
  files_readable w cfg inputs →
  ∃ results s',
    run_batch w cfg inputs target tts s = (Ok results, s')
    ∧ results.*1 = inputs
    ∧ ∀ k audio_path, inputs !! k = Some audio_path →
        ∃ earlier s_k res s_k',
          run_batch w cfg (take k inputs) target tts s = (Ok earlier, s_k)
          ∧ process_single_file w cfg audio_path target tts s_k = (Ok res, s_k')
          ∧ results !! k = Some (audio_path, res).
Proof.
  revert s. induction inputs as [| p rest IH]; intros s Hread.
  - exists [], s. repeat split. intros k audio_path Hk. by rewrite lookup_nil in Hk.
  - apply files_readable_cons in Hread as [Hp Hrest].
    destruct (process_single_file_total p target tts Hp s) as (r & s1 & E).
    destruct (IH s1 Hrest) as (results & s' & Erest & Hfst & Hitems).
    exists ((p, r) :: results), s'. rewrite run_batch_cons, E, Erest.
    split; [done |]. split; [rewrite fmap_cons; by f_equal |].
    intros [| k] audio_path Hk; simpl in Hk.
    + injection Hk as <-. by exists [], s, r, s1.
    + destruct (Hitems k audio_path Hk) as (earlier & s_k & res & s_k' & Eearlier & Eres & Hres).
      exists ((p, r) :: earlier), s_k, res, s_k'. simpl take.
      by rewrite run_batch_cons, E, Eearlier.
Qed.

(** How far the capture of errors per item goes.  For every list of N
    audio inputs that, under the Google backend, [sr.AudioFile] can read,
    and whatever the transcription, translation, detection and synthesis
    backends do, the batch loop returns N results in input order; the k-th
    result is what [process_single_file] returns for the k-th input after
    the earlier ones, so every item is processed; and an item whose
    transcription fails or is empty gets the record
    [{'error': 'STT failed or empty', ...}] of its own. *)
Lemma batch_results_per_item (inputs : list string) (target tts : string) (s : State) :
  files_readable w cfg inputs →
  ∃ results s',
    run_batch w cfg inputs target tts s = (Ok results, s')
    ∧ length results = length inputs
    ∧ results.*1 = inputs
    ∧ ∀ k audio_path, inputs !! k = Some audio_path →
        ∃ earlier s_k res s_k',
          run_batch w cfg (take k inputs) target tts s = (Ok earlier, s_k)
          ∧ process_single_file w cfg audio_path target tts s_k = (Ok res, s_k')
          ∧ results !! k = Some (audio_path, res)
          ∧ ((speech_to_text w cfg audio_path s_k).1 = Ok "" → res = stt_failed_record).
Proof.
  intros Hread.
  destruct (run_batch_items inputs target tts s Hread) as (results & s' & E & Hfst & Hitems).
  exists results, s'. split; [done |].
  split; [by rewrite <- Hfst, length_fmap |]. split; [done |].
  intros k audio_path Hk.
  destruct (Hitems k audio_path Hk) as (earlier & s_k & res & s_k' & Eearlier & Eres & Hres).
  exists earlier, s_k, res, s_k'. repeat split; try done.
  destruct (speech_to_text w cfg audio_path s_k) as [r s1] eqn:Estt. simpl. intros ->.
  rewrite (process_single_file_empty w cfg audio_path target tts s_k s1 Estt) in Eres.
  by injection Eres as <- _.
Qed.

End Batch.

Lemma batch_results_per_item_witness :
  ∃ results s',
    run_batch offline_world google_cfg ["first.wav"; "second.wav"] "es" "gTTS (online)" initial
      = (Ok results, s')
    ∧ length results = 2
    ∧ results.*1 = ["first.wav"; "second.wav"].
Proof.
  destruct (batch_results_per_item offline_world google_cfg ["first.wav"; "second.wav"]
              "es" "gTTS (online)" initial) as (results & s' & E & Hlen & Hfst & _).
  - intros _ h audio_path _. by exists [].
  - by exists results, s'.
Defined.

(** C6: an error at one item is to be kept in that item's record, and
    the loop of lines 329-331 relies on [process_single_file] for it.  The
    second of three uploads is an MP3, which [sr.AudioFile] rejects
    outside the [try] of [recognize_with_google]: the exception leaves
    [process_single_file] and the loop, no result list is produced, not
    even for the first file, and the third file is never read. *)
Theorem unreadable_item_aborts_batch :
  run_batch picky_world google_cfg ["hello.wav"; "talk.mp3"; "bye.wav"] "es" "gTTS (online)"
    initial =
    (Raise (Exception "Audio file could not be read as PCM WAV, AIFF/AIFF-C, or Native FLAC"),
     mkState [Invoke AudioFile_record ["hello.wav"]; Invoke recognize_google [];
              Invoke langdetect_detect ["hello"];
              Invoke GoogleTranslator_translate ["es"; "hello"];
              Invoke time_time [];
              Invoke gTTS_create ["hola"; "es"];
              Invoke gTTS_save ["/tmp/translated_1700000000.mp3"];
              Invoke AudioFile_record ["talk.mp3"]] []).
Proof. by vm_compute. Qed.

(** ** The live loop (lines 359-420) *)

Section FlagFacts.

Context {A B : Type}.

Lemma keeps_flags_ret (a : A) : keeps_flags (mret a : M A).
Proof. by intros s r s' [= <- <-]. Qed.

Lemma keeps_flags_bind (m : M A) (k : A → M B) :
  keeps_flags m → (∀ a, keeps_flags (k a)) → keeps_flags (m ≫= k).
Proof.
  intros Hm Hk s r s'. unfold mbind, M_bind, bind.
  destruct (m s) as [[a | e] s1] eqn:E; apply Hm in E.
  - intros Hk'%Hk. congruence.
  - intros [= <- <-]. done.
Qed.

Lemma keeps_flags_try (m : M A) (h : Exn → M A) :
  keeps_flags m → (∀ e, keeps_flags (h e)) → keeps_flags (try_except m h).
Proof.
  intros Hm Hh s r s'. unfold try_except.
  destruct (m s) as [[a | e] s1] eqn:E; apply Hm in E.
  - intros [= <- <-]. done.
  - intros Hh'%Hh. congruence.
Qed.

Lemma keeps_flags_if (c : bool) (m1 m2 : M A) :
  keeps_flags m1 → keeps_flags m2 → keeps_flags (if c then m1 else m2).
Proof. by destruct c. Qed.

Lemma keeps_flags_extcall (api : Api) (args : list string) (oracle : History → Result A) :
  keeps_flags (extcall api args oracle).
Proof. by intros s r s' [= <- <-]. Qed.

End FlagFacts.

Lemma keeps_flags_emit (ev : Event) : keeps_flags (emit ev).
Proof. by intros s r s' [= <- <-]. Qed.

Create HintDb flags discriminated.
#[local] Hint Resolve keeps_flags_emit : flags.
#[local] Hint Extern 1 (keeps_flags (extcall _ _ _)) => apply keeps_flags_extcall : flags.
#[local] Hint Extern 1 (keeps_flags (mret _)) => apply keeps_flags_ret : flags.
#[local] Hint Extern 2 (keeps_flags (_ ≫= _)) => apply keeps_flags_bind; [| intros ?] : flags.
#[local] Hint Extern 2 (keeps_flags (try_except _ _)) => apply keeps_flags_try; [| intros ?] : flags.
#[local] Hint Extern 2 (keeps_flags (if _ then _ else _)) => apply keeps_flags_if : flags.
#[local] Hint Extern 3 (keeps_flags (match ?e with _ => _ end)) => destruct e : flags.

Section LiveLoop.

Variable w : World.
Variable cfg : Settings.

Lemma live_cycle_body_keeps_flags (target_lang : string) (chunk_sec pause_sec : nat)
    (tts : string) :
  keeps_flags (live_cycle_body w cfg target_lang chunk_sec pause_sec tts).
Proof.
  assert (∀ p, keeps_flags (speech_to_text w cfg p)) as Hstt.
  { intros p s r s' E. by apply speech_to_text_events in E as (_ & _ & _ & ?). }
  unfold live_cycle_body, detect_language, translate_text, now, tts_gtts_and_save,
    tts_pyttsx3_and_save, convert_to_mp3.
  auto 30 with flags.
Qed.

Lemma live_cycle_total (target_lang : string) (chunk_sec pause_sec : nat) (tts : string) :
  never_raises (live_cycle w cfg target_lang chunk_sec pause_sec tts).
Proof. unfold live_cycle. auto with total. Qed.

Lemma load_run_total (g : nat) : never_raises (load_run w g).
Proof. intros s. unfold load_run. by eexists _, _. Qed.

(** No exception leaves the [while] loop. *)
Lemma live_while_total (fuel g : nat) (target_lang : string) (chunk_sec pause_sec : nat)
    (tts : string) :
  never_raises (live_while w cfg fuel g target_lang chunk_sec pause_sec tts).
Proof.
  induction fuel as [| fuel IH]; simpl; [apply never_raises_ret |].
  apply never_raises_bind; [apply load_run_total |].
  intros [|]; [| apply never_raises_ret].
  apply never_raises_bind; [apply live_cycle_total | done].
Qed.

(** The start of [live_loop], by the answers of the microphone. *)
Lemma live_loop_unfold (fuel g : nat) (target_lang : string) (chunk_sec pause_sec : nat)
    (tts : string) (s : State) :
  live_loop w cfg fuel g target_lang chunk_sec pause_sec tts s =
    let s1 := log (Invoke sr_Microphone []) s in
    match w_Microphone w (trace s) with
    | Raise e =>
        (Ok Returned,
         set_flag g false (log (st_error ("Microphone not available: " +:+ exn_str e)) s1))
    | Ok _ =>
        let s2 := log (Invoke Microphone_enter []) s1 in
        match w_mic_enter w (trace s1) with
        | Raise e => (Raise e, s2)
        | Ok _ =>
            let s3 := log (Invoke adjust_for_ambient_noise []) s2 in
            match w_adjust w (trace s2) with
            | Raise e => (Raise e, log (Invoke Microphone_exit []) s3)
            | Ok _ =>
                closing_microphone
                  (live_while w cfg fuel g target_lang chunk_sec pause_sec tts) s3
            end
        end
    end.
Proof.
  unfold live_loop, with_microphone, closing_microphone. mrun.
  destruct (w_Microphone w (trace s)); [| done]. simpl.
  destruct (w_mic_enter w _); [| done]. simpl.
  by destruct (w_adjust w _).
Qed.

(** C7: in a cycle entered with the flag read true, an exception raised
    by the cycle body is caught: a warning is reported and the thread
    sleeps one second; the flag is still true, so the loop goes back to
    its test and, unless the controller cleared the flag meanwhile, into
    the next cycle; the loop itself never ends by an exception. *)
Theorem live_cycle_absorbs_exceptions (fuel g : nat) (target_lang : string)
    (chunk_sec pause_sec : nat) (tts : string) (s0 s s1 : State) (e : Exn) :
  load_run w g s0 = (Ok true, s) →
  live_cycle_body w cfg target_lang chunk_sec pause_sec tts s = (Raise e, s1) →
  let s2 := log (time_sleep 1) (log (st_warning ("Live loop error: " +:+ exn_str e)) s1) in
  live_cycle w cfg target_lang chunk_sec pause_sec tts s = (Ok tt, s2)
  ∧ get_flag g s2 = true
  ∧ live_while w cfg (S fuel) g target_lang chunk_sec pause_sec tts s0
    = live_while w cfg fuel g target_lang chunk_sec pause_sec tts s2
  ∧ (w_concurrent_stop w (trace s2) = false → load_run w g s2 = (Ok true, s2))
  ∧ ∃ status s', live_while w cfg (S fuel) g target_lang chunk_sec pause_sec tts s0
                 = (Ok status, s').
Proof.
  intros Hload Hbody s2.
  assert (live_cycle w cfg target_lang chunk_sec pause_sec tts s = (Ok tt, s2)) as Hcycle.
  { unfold live_cycle, try_except. by rewrite Hbody. }
  assert (get_flag g s2 = true) as Hflag.
  { apply live_cycle_body_keeps_flags in Hbody.
    unfold load_run in Hload. injection Hload as Hg <-.
    unfold get_flag in *. simpl. by rewrite Hbody. }
  split; [done |]. split; [done |]. split; [| split].
  - simpl. unfold mbind, M_bind, bind. by rewrite Hload, Hcycle.
  - intros Hstop. unfold load_run. by rewrite Hstop, Hflag.
  - apply live_while_total.
Qed.

(** The failure the handler of lines 364-367 covers: when
    [sr.Microphone()] raises, [live_loop] reports the error, clears the run
    flag and returns, and no chunk has been captured.  And whenever
    [live_loop] ends by an exception, the exception came from opening or
    calibrating the stream, before any cycle. *)
Lemma microphone_failure_stops_live_loop (fuel g : nat) (target_lang : string)
    (chunk_sec pause_sec : nat) (tts : string) (s : State) :
  (∀ e, w_Microphone w (trace s) = Raise e →
     ∃ s', live_loop w cfg fuel g target_lang chunk_sec pause_sec tts s = (Ok Returned, s')
       ∧ trace s' = trace s ++ [Invoke sr_Microphone [];
                                st_error ("Microphone not available: " +:+ exn_str e)]
       ∧ get_flag g s' = false
       ∧ call_count Microphone_record (trace s') = call_count Microphone_record (trace s))
  ∧ (∀ e s', live_loop w cfg fuel g target_lang chunk_sec pause_sec tts s = (Raise e, s') →
       call_count Microphone_record (trace s') = call_count Microphone_record (trace s)
       ∧ (w_mic_enter w (trace (log (Invoke sr_Microphone []) s)) = Raise e
          ∨ w_adjust w (trace (log (Invoke Microphone_enter [])
                                 (log (Invoke sr_Microphone []) s))) = Raise e)).
Proof.
  split.
  - intros e Hmic. rewrite live_loop_unfold, Hmic. simpl. eexists. split; [done |].
    split; [simpl; by rewrite <- app_assoc |]. split.
    + unfold get_flag. simpl. destruct (decide (g < length (flags s))).
      * by rewrite list_lookup_insert_eq.
      * rewrite list_insert_ge by lia. rewrite lookup_ge_None_2 by lia. done.
    + simpl. rewrite !call_count_app. simpl. lia.
  - intros e s'. rewrite live_loop_unfold. simpl.
    destruct (w_Microphone w (trace s)); [| done].
    destruct (w_mic_enter w _) as [| e1].
    + destruct (w_adjust w _) as [| e2].
      * unfold closing_microphone.
        destruct (live_while_total fuel g target_lang chunk_sec pause_sec tts
                    (log (Invoke adjust_for_ambient_noise [])
                       (log (Invoke Microphone_enter []) (log (Invoke sr_Microphone []) s))))
          as (status & s3 & ->).
        by destruct status.
      * intros [= <- <-]. split; [| by right].
        simpl. rewrite !call_count_app. simpl. lia.
    + intros [= <- <-]. split; [| by left].
      simpl. rewrite !call_count_app. simpl. lia.
Qed.

(** C9: a microphone that fails at the start of the live loop is to be
    reported, with the run flag cleared and the function returning.  The
    [try] of lines 362-367 does so for the constructor [sr.Microphone()]
    only; the audio device is opened by [with mic as source] (line 369) and
    first read by the calibration (line 370), both outside that [try].
    When either raises, the exception leaves [live_loop]: nothing is
    reported, the run flag stays true and no chunk has been captured. *)
Theorem stream_failure_escapes_live_loop (fuel g : nat) (target_lang : string)
    (chunk_sec pause_sec : nat) (tts : string) (s : State) (e : Exn) :
  get_flag g s = true →
  w_Microphone w (trace s) = Ok tt →
  let s1 := log (Invoke sr_Microphone []) s in
  let s2 := log (Invoke Microphone_enter []) s1 in
  let s3 := log (Invoke adjust_for_ambient_noise []) s2 in
  w_mic_enter w (trace s1) = Raise e
  ∨ (w_mic_enter w (trace s1) = Ok tt ∧ w_adjust w (trace s2) = Raise e) →
  ∃ s', live_loop w cfg fuel g target_lang chunk_sec pause_sec tts s = (Raise e, s')
    ∧ get_flag g s' = true
    ∧ (trace s' = trace s ++ [Invoke sr_Microphone []; Invoke Microphone_enter []]
       ∨ trace s' = trace s ++ [Invoke sr_Microphone []; Invoke Microphone_enter [];
                                Invoke adjust_for_ambient_noise []; Invoke Microphone_exit []])
    ∧ (∀ msg, st_error msg ∈ trace s' → st_error msg ∈ trace s)
    ∧ call_count Microphone_record (trace s') = call_count Microphone_record (trace s).
Proof.
  intros Hflag Hmic s1 s2 s3 Hstream. rewrite live_loop_unfold, Hmic.
  cbv zeta. fold s1 s2 s3.
  destruct Hstream as [Henter | [Henter Hadjust]].
  - rewrite Henter. exists s2. split; [done |]. split; [done |].
    split; [left; simpl; by rewrite <- app_assoc |]. split.
    + intros msg. simpl. rewrite <- !app_assoc. intros [? | Hin]%elem_of_app; [done |].
      by repeat (apply elem_of_cons in Hin as [? | Hin]; [done |]); apply elem_of_nil in Hin.
    + simpl. rewrite !call_count_app. simpl. lia.
  - rewrite Henter, Hadjust.
    exists (log (Invoke Microphone_exit []) s3). split; [done |]. split; [done |].
    split; [right; simpl; by rewrite <- !app_assoc |]. split.
    + intros msg. simpl. rewrite <- !app_assoc. intros [? | Hin]%elem_of_app; [done |].
      by repeat (apply elem_of_cons in Hin as [? | Hin]; [done |]); apply elem_of_nil in Hin.
    + simpl. rewrite !call_count_app. simpl. lia.
Qed.

End LiveLoop.

Lemma live_cycle_absorbs_exceptions_witness :
  live_cycle glitch_world google_cfg "es" 4 0 "gTTS (online)" (mkState [] [true]) =
    (Ok tt,
     mkState [Invoke Microphone_record ["4"]; st_warning "Live loop error: Stream closed";
              time_sleep 1] [true])
  ∧ live_while glitch_world google_cfg 2 0 "es" 4 0 "gTTS (online)" (mkState [] [true])
    = live_while glitch_world google_cfg 1 0 "es" 4 0 "gTTS (online)"
        (mkState [Invoke Microphone_record ["4"]; st_warning "Live loop error: Stream closed";
                  time_sleep 1] [true]).
Proof.
  destruct (live_cycle_absorbs_exceptions glitch_world google_cfg 1 0 "es" 4 0 "gTTS (online)"
              (mkState [] [true]) (mkState [] [true])
              (mkState [Invoke Microphone_record ["4"]] [true]) (Exception "Stream closed"))
    as (Hcycle & _ & Hnext & _).
  - reflexivity.
  - reflexivity.
  - split; [exact Hcycle | exact Hnext].
Defined.

Lemma microphone_failure_stops_live_loop_witness :
  ∃ s', live_loop deaf_world google_cfg 3 0 "es" 4 0 "gTTS (online)" (mkState [] [true])
        = (Ok Returned, s')
    ∧ trace s' = [Invoke sr_Microphone [];
                  st_error "Microphone not available: No Default Input Device Available"]
    ∧ get_flag 0 s' = false.
Proof.
  destruct (proj1 (microphone_failure_stops_live_loop deaf_world google_cfg 3 0 "es" 4 0
                     "gTTS (online)" (mkState [] [true]))
              (Exception "No Default Input Device Available") eq_refl)
    as (s' & E & Htrace & Hflag & _).
  by exists s'.
Defined.

Lemma stream_failure_escapes_live_loop_witness :
  ∃ s', live_loop busy_world google_cfg 3 0 "es" 4 0 "gTTS (online)" (mkState [] [true])
        = (Raise (Exception "[Errno -9985] Device unavailable"), s')
    ∧ get_flag 0 s' = true
    ∧ (trace s' = [Invoke sr_Microphone []; Invoke Microphone_enter []]
       ∨ trace s' = [Invoke sr_Microphone []; Invoke Microphone_enter [];
                     Invoke adjust_for_ambient_noise []; Invoke Microphone_exit []])
    ∧ (∀ msg, st_error msg ∈ trace s' → st_error msg ∈ [])
    ∧ call_count Microphone_record (trace s') = 0.
Proof.
  apply (stream_failure_escapes_live_loop busy_world google_cfg 3 0 "es" 4 0 "gTTS (online)"
           (mkState [] [true]) (Exception "[Errno -9985] Device unavailable")).
  - reflexivity.
  - reflexivity.
  - left. reflexivity.
Defined.

(** On that microphone the loop ends at line 369. *)
Lemma busy_microphone_run :
  live_loop busy_world google_cfg 3 0 "es" 4 0 "gTTS (online)" (mkState [] [true]) =
    (Raise (Exception "[Errno -9985] Device unavailable"),
     mkState [Invoke sr_Microphone []; Invoke Microphone_enter []] [true]).
Proof. reflexivity. Qed.

(** The same when the stream opens and the calibration fails: the stream
    is closed again, and that is all. *)
Lemma calibration_failure_escapes_live_loop :
  live_loop unplugged_world google_cfg 3 0 "es" 4 0 "gTTS (online)" (mkState [] [true]) =
    (Raise (Exception "[Errno -9988] Stream closed"),
     mkState [Invoke sr_Microphone []; Invoke Microphone_enter [];
              Invoke adjust_for_ambient_noise []; Invoke Microphone_exit []] [true]).
Proof. reflexivity. Qed.

(** After the failed cycle of the witness the loop does capture again. *)
Lemma glitch_then_next_cycle :
  call_count Microphone_record
    (trace (live_loop glitch_world google_cfg 2 0 "es" 4 0 "gTTS (online)"
              (mkState [] [true])).2) = 2.
Proof. by vm_compute. Qed.

(** ** Start and stop (lines 356-357, 423-433) *)

(** The guard of line 426: with the flag of [g] true, a click on Start
    changes nothing. *)
Lemma start_handler_when_running (g : nat) (clicked : bool) (s : State) :
  get_flag g s = true → start_handler g clicked s = (Ok tt, s).
Proof. intros E. unfold start_handler. rewrite E. by destruct clicked. Qed.

(** The dictionary made at line 357 reads false. *)
Lemma new_live_flag_is_false (s : State) :
  get_flag (length (flags s)) (new_live_flag s).2 = false.
Proof.
  unfold new_live_flag, get_flag. simpl.
  by rewrite lookup_app_r, Nat.sub_diag by lia.
Qed.

Lemma live_threads_app (h1 h2 : History) :
  live_threads (h1 ++ h2) = live_threads h1 ++ live_threads h2.
Proof.
  induction h1 as [| ev h1 IH]; [done |].
  destruct ev; simpl; by rewrite ?IH.
Qed.

(** So the guard never holds a click back: every run of the script in
    which Start is clicked starts a thread, whatever ran before. *)
Lemma live_controls_start_spawns (ui : Clicks) (s : State) :
  live_mode ui = true → start_clicked ui = true →
  live_threads (trace (live_controls ui s).2) = live_threads (trace s) ++ [length (flags s)].
Proof.
  intros Hlive Hstart. unfold live_controls.
  unfold mbind, M_bind, bind. simpl. rewrite Hlive.
  unfold start_handler. rewrite Hstart, new_live_flag_is_false. simpl.
  unfold stop_handler. mrun.
  destruct (stop_clicked ui && _); simpl; rewrite ?live_threads_app; simpl;
    rewrite ?live_threads_app; simpl; by rewrite ?app_nil_r.
Qed.

(** C8: two runs of the script with a click on Start and none on Stop.
    Line 357 gives each run a new dictionary [{'run': False}], the guard
    of line 426 passes both times, and two live-loop threads are started,
    each reading a flag that is true: two loops are active, not one. *)
Theorem two_starts_two_loops :
  let s := (script_runs [mkClicks true true false; mkClicks true true false] initial).2 in
  live_threads (trace s) = [0; 1]
  ∧ flags s = [true; true]
  ∧ active_loops s = [0; 1]
  ∧ length (active_loops s) = 2.
Proof. by vm_compute. Qed.

(** A click on Stop clears the dictionary of its own run, which no
    thread reads: the loop started before stays active. *)
Lemma stop_click_leaves_loop_active :
  active_loops (script_runs [mkClicks true true false; mkClicks true false true] initial).2
    = [0].
Proof. by vm_compute. Qed.

(** ** The language menu (lines 63-80) *)

Lemma append_String (c : ascii) (s t : string) : String c s +:+ t = String c (s +:+ t).
Proof. reflexivity. Qed.

Lemma append_empty (t : string) : "" +:+ t = t.
Proof. reflexivity. Qed.

Ltac sapp := unfold em_dash in *; rewrite ?append_String, ?append_empty in *.

Lemma prefix_dash_inv (s : string) :
  String.prefix em_dash s = true → ∃ r, s = em_dash +:+ r.
Proof.
  unfold em_dash.
  destruct s as [| c1 [| c2 [| c3 r]]]; cbn [String.prefix];
    repeat match goal with
           | |- context [ascii_dec ?a ?b] => destruct (ascii_dec a b) as [<- |]
           end; try done.
  intros _. by exists r.
Qed.

Lemma prefix_dash_here (r : string) : String.prefix em_dash (em_dash +:+ r) = true.
Proof.
  sapp. cbn [String.prefix].
  repeat match goal with
         | |- context [ascii_dec ?a ?b] => destruct (ascii_dec a b) as [_ |]; [| done]
         end.
  by destruct r.
Qed.

Lemma split_dash_nonempty (s : string) : split_dash s ≠ [].
Proof.
  destruct s as [| c rest]; [done |]. cbn [split_dash].
  destruct (String.prefix em_dash (String c rest)); [done |].
  by destruct (split_dash rest).
Qed.

(** Without a dash there is one segment, the text itself. *)
Lemma split_dash_none (s : string) : contains_dash s = false → split_dash s = [s].
Proof.
  induction s as [| c rest IH]; [done |].
  cbn [contains_dash split_dash]. intros [Hhere Hrest]%orb_false_iff.
  by rewrite Hhere, IH.
Qed.

Lemma split_dash_at_dash (r : string) : split_dash (em_dash +:+ r) = "" :: split_dash r.
Proof.
  pose proof (prefix_dash_here r) as E. sapp.
  cbn [split_dash]. unfold em_dash. by rewrite E.
Qed.

(** After a dash, splitting starts afresh. *)
Lemma split_dash_app (a b : string) :
  ∃ pre, pre ≠ [] ∧ split_dash (a +:+ em_dash +:+ b) = pre ++ split_dash b.
Proof.
  remember (String.length a) as n eqn:Hn.
  revert a Hn. induction (lt_wf n) as [n _ IH]. intros a ->.
  destruct a as [| c a'].
  - exists [""]. split; [done |]. apply split_dash_at_dash.
  - rewrite append_String.
    destruct (String.prefix em_dash (String c (a' +:+ em_dash +:+ b))) eqn:Hp.
    + pose proof Hp as [r Hr]%prefix_dash_inv.
      destruct a' as [| c2 [| c3 a'']]; unfold em_dash in Hr;
        rewrite ?append_String, ?append_empty in Hr;
        [discriminate Hr | discriminate Hr |].
      injection Hr as -> -> -> Hr.
      destruct (IH (String.length a'')) with (a := a'') as (pre & Hpre & E);
        [simpl; lia | done |].
      exists ("" :: pre). split; [done |].
      rewrite !append_String.
      change (String "226" (String "128" (String "148" (a'' +:+ em_dash +:+ b))))
        with (em_dash +:+ (a'' +:+ em_dash +:+ b)).
      by rewrite split_dash_at_dash, E.
    + destruct (IH (String.length a')) with (a := a') as (pre & Hpre & E);
        [simpl; lia | done |].
      cbn [split_dash]. rewrite Hp, E.
      destruct pre as [| seg segs]; [done |].
      by exists (String c seg :: segs).
Qed.

Lemma append_assoc (a b c : string) : (a +:+ b) +:+ c = a +:+ b +:+ c.
Proof. induction a as [| x a IH]; [done |]. by rewrite !append_String, IH. Qed.

Lemma last_segment_of_label (name rest : string) :
  contains_dash rest = false →
  List.last (split_dash (name +:+ " " +:+ em_dash +:+ rest)) "" = rest.
Proof.
  intros Hrest. rewrite <- append_assoc.
  destruct (split_dash_app (name +:+ " ") rest) as (pre & Hpre & ->).
  rewrite (split_dash_none rest Hrest). by rewrite last_last.
Qed.

Lemma lstrip_of_stop (table : list (list ascii)) (fuel : nat) (l : list ascii) :
  drop_first_of table l = None → lstrip_of table fuel l = l.
Proof. intros E. destruct fuel; [done |]. simpl. by rewrite E. Qed.

Lemma py_strip_one_space (code : string) :
  starts_with_space code = false → ends_with_space code = false →
  py_strip (" " +:+ code) = code.
Proof.
  unfold starts_with_space, ends_with_space, py_strip.
  intros Hstart%bool_decide_eq_false Hend%bool_decide_eq_false.
  apply eq_None_not_Some in Hstart, Hend.
  change (String.list_ascii_of_string (" " +:+ code))
    with (" "%char :: String.list_ascii_of_string code).
  cbn [length lstrip_of].
  change (drop_first_of whitespace (" "%char :: String.list_ascii_of_string code))
    with (Some (String.list_ascii_of_string code)).
  cbv beta iota.
  rewrite (lstrip_of_stop _ _ _ Hstart), (lstrip_of_stop _ _ _ Hend), rev_involutive.
  apply String.string_of_list_ascii_of_string.
Qed.

(** X1: a label built as [f"{name} — {code}"] is parsed back to its code
    by line 80, whatever the name is, provided the code holds no dash and
    neither begins nor ends with white space. *)
Theorem label_parses_to_code (name code : string) :
  contains_dash code = false →
  starts_with_space code = false →
  ends_with_space code = false →
  translate_target_of (lang_option name code) = code.
Proof.
  intros Hdash Hstart Hend. unfold translate_target_of, lang_option.
  rewrite last_segment_of_label; [by apply py_strip_one_space |].
  rewrite append_String, append_empty. cbn [contains_dash]. rewrite Hdash, orb_false_r.
  unfold em_dash. cbn [String.prefix]. by destruct (ascii_dec _ _).
Qed.

Lemma label_parses_to_code_witness :
  translate_target_of (lang_option "Chinese (Simplified)" "zh-cn") = "zh-cn".
Proof.
  apply (label_parses_to_code "Chinese (Simplified)" "zh-cn"); reflexivity.
Defined.

(** X2: whichever option of the menu is selected, [translate_target] is
    the code [LANGUAGES] gives to the language named in the label. *)
Theorem menu_choice_is_a_language_code (translate_choice : string) :
  translate_choice ∈ LANG_OPTIONS →
  ∃ name, (name, translate_target_of translate_choice) ∈ LANGUAGES
          ∧ translate_choice = lang_option name (translate_target_of translate_choice).
Proof.
  unfold LANG_OPTIONS. intros Hin%list_elem_of_In.
  apply in_map_iff in Hin as ((name & code) & <- & Hin%list_elem_of_In).
  assert (contains_dash code = false ∧ starts_with_space code = false
          ∧ ends_with_space code = false) as (Hdash & Hstart & Hend).
  { revert name code Hin.
    assert (Forall (λ e : string * string,
                      contains_dash e.2 = false ∧ starts_with_space e.2 = false
                      ∧ ends_with_space e.2 = false) LANGUAGES) as Hall
      by (repeat constructor).
    intros name code Hin. by apply (proj1 (Forall_forall _ _) Hall (name, code)). }
  exists name. simpl.
  assert (translate_target_of (lang_option name code) = code) as ->; [| done].
  unfold translate_target_of, lang_option.
  rewrite last_segment_of_label; [by apply py_strip_one_space |].
  rewrite append_String, append_empty. cbn [contains_dash]. rewrite Hdash, orb_false_r.
  unfold em_dash. cbn [String.prefix]. by destruct (ascii_dec _ _).
Qed.

Lemma menu_choice_is_a_language_code_witness :
  ∃ name, (name, translate_target_of "Hindi — hi") ∈ LANGUAGES
          ∧ "Hindi — hi" = lang_option name (translate_target_of "Hindi — hi").
Proof.
  apply (menu_choice_is_a_language_code "Hindi — hi").
  apply list_elem_of_further, list_elem_of_here.
Defined.

(** ** What a computation adds to the trace *)

Section TraceFacts.

Context {A B : Type} (P : Event → bool).

Lemma emits_only_ret (a : A) : emits_only P (mret a : M A).
Proof. intros s r s' [= <- <-]. exists []. by rewrite app_nil_r. Qed.

Lemma emits_only_bind (m : M A) (k : A → M B) :
  emits_only P m → (∀ a, emits_only P (k a)) → emits_only P (m ≫= k).
Proof.
  intros Hm Hk s r s'. unfold mbind, M_bind, bind.
  destruct (m s) as [[a | e] s1] eqn:E; apply Hm in E as (added1 & E1 & H1).
  - intros (added2 & E2 & H2)%Hk. exists (added1 ++ added2).
    split; [by rewrite E2, E1, app_assoc | by apply Forall_app].
  - intros [= <- <-]. by exists added1.
Qed.

Lemma emits_only_try (m : M A) (h : Exn → M A) :
  emits_only P m → (∀ e, emits_only P (h e)) → emits_only P (try_except m h).
Proof.
  intros Hm Hh s r s'. unfold try_except.
  destruct (m s) as [[a | e] s1] eqn:E; apply Hm in E as (added1 & E1 & H1).
  - intros [= <- <-]. by exists added1.
  - intros (added2 & E2 & H2)%Hh. exists (added1 ++ added2).
    split; [by rewrite E2, E1, app_assoc | by apply Forall_app].
Qed.

Lemma emits_only_if (c : bool) (m1 m2 : M A) :
  emits_only P m1 → emits_only P m2 → emits_only P (if c then m1 else m2).
Proof. by destruct c. Qed.

Lemma emits_only_extcall (api : Api) (args : list string) (oracle : History → Result A) :
  P (Invoke api args) = true → emits_only P (extcall api args oracle).
Proof. intros HP s r s' [= <- <-]. exists [Invoke api args]. split; [done | by constructor]. Qed.

End TraceFacts.

Lemma emits_only_emit (P : Event → bool) (ev : Event) : P ev = true → emits_only P (emit ev).
Proof. intros HP s r s' [= <- <-]. exists [ev]. split; [done | by constructor]. Qed.

Lemma emits_only_weaken {A} (P Q : Event → bool) (m : M A) :
  (∀ ev, P ev = true → Q ev = true) → emits_only P m → emits_only Q m.
Proof.
  intros HPQ Hm s r s' (added & E & Hadded)%Hm. exists added. split; [done |].
  eapply Forall_impl; [exact Hadded | exact HPQ].
Qed.

Lemma call_count_not_called (api : Api) (h : History) :
  Forall (λ ev, not_call api ev = true) h → call_count api h = 0.
Proof.
  induction 1 as [| ev h Hev _ IH]; [done |].
  destruct ev as [| | | | a args | | |]; simpl in *; try done.
  apply negb_true_iff, bool_decide_eq_false in Hev. by rewrite decide_False.
Qed.

(** A computation that never calls [api] leaves its count as it was. *)
Lemma emits_only_call_count {A} (api : Api) (m : M A) (s s' : State) (r : Result A) :
  emits_only (not_call api) m → m s = (r, s') →
  call_count api (trace s') = call_count api (trace s).
Proof.
  intros Hm (added & -> & Hadded)%Hm.
  rewrite call_count_app, (call_count_not_called api added Hadded). lia.
Qed.

Create HintDb events discriminated.
#[local] Hint Extern 1 (emits_only _ (extcall _ _ _)) =>
  apply emits_only_extcall; reflexivity : events.
#[local] Hint Extern 1 (emits_only _ (emit _)) => apply emits_only_emit; reflexivity : events.
#[local] Hint Extern 1 (emits_only _ (mret _)) => apply emits_only_ret : events.
#[local] Hint Extern 2 (emits_only _ (_ ≫= _)) => apply emits_only_bind; [| intros ?] : events.
#[local] Hint Extern 2 (emits_only _ (try_except _ _)) =>
  apply emits_only_try; [| intros ?] : events.
#[local] Hint Extern 2 (emits_only _ (if _ then _ else _)) => apply emits_only_if : events.
#[local] Hint Extern 3 (emits_only _ (match ?e with _ => _ end)) => destruct e : events.

Section StepEvents.

Variable w : World.
Variable cfg : Settings.

Lemma speech_to_text_emits (P : Event → bool) (audio_file : string) :
  (∀ ev, stt_event ev = true → P ev = true) →
  emits_only P (speech_to_text w cfg audio_file).
Proof.
  intros HP s r s' (added & E & Hadded & _)%speech_to_text_events.
  exists added. split; [done |]. eapply Forall_impl; [exact Hadded | exact HP].
Qed.

End StepEvents.

(** ** More on the pipeline of one file (lines 131-173, 249-289) *)

Section PipelineFacts.

Variable w : World.
Variable cfg : Settings.

(** X3: for a text that is not empty, [translate_text] asks the backend
    exactly once; it returns the answer as it is, and on a failure the
    empty string after the warning [Translation error: ...]. *)
Theorem translate_text_outcome (text target_lang : string) (s : State) :
  text ≠ "" →
  let s1 := log (Invoke GoogleTranslator_translate [target_lang; text]) s in
  translate_text w text target_lang s =
    match w_translate w (trace s) target_lang text with
    | Ok translated => (Ok translated, s1)
    | Raise e => (Ok "", log (st_warning ("Translation error: " +:+ exn_str e)) s1)
    end
  ∧ call_count GoogleTranslator_translate (trace (translate_text w text target_lang s).2)
    = S (call_count GoogleTranslator_translate (trace s)).
Proof.
  intros Hne%String.eqb_neq. unfold translate_text. rewrite Hne. mrun.
  destruct (w_translate w (trace s) target_lang text); simpl;
    (split; [done |]); rewrite !call_count_app; simpl; lia.
Qed.

(** What synthesis hands back is [None], the requested path, or under
    pyttsx3 the WAV path when the conversion failed. *)
Lemma synthesis_step_result (tts translated target_lang out_path : string) (s s' : State)
    (r : Result PyVal) :
  synthesis_step w tts translated target_lang out_path s = (r, s') →
  r = Ok PyNone ∨ r = Ok (PyStr out_path) ∨ r = Ok (PyStr (replace_mp3_wav out_path)).
Proof.
  unfold synthesis_step, tts_gtts_and_save, tts_pyttsx3_and_save, convert_to_mp3.
  destruct (String.eqb tts "gTTS (online)").
  - destruct (String.eqb translated ""); mrun; [intros [= <- _]; by left |].
    destruct (w_gTTS w _ _ _); simpl; [| intros [= <- _]; by left].
    destruct (w_gTTS_save w _ _); simpl; intros [= <- _]; [right | ]; by left.
  - destruct (has_pyttsx3 w); mrun; [| intros [= <- _]; by left].
    destruct (w_pyttsx3_init w _); simpl; [| intros [= <- _]; by left].
    destruct (w_save_to_file w _ _ _); simpl; [| intros [= <- _]; by left].
    destruct (w_runAndWait w _); simpl; [| intros [= <- _]; by left].
    destruct (String.eqb (replace_mp3_wav out_path) ""); simpl.
    + intros [= <- _]. by right; right.
    + destruct (w_from_file w _ _); simpl; [| intros [= <- _]; by right; right].
      destruct (w_export w _ _ _); simpl; intros [= <- _]; right; [by left | by right].
Qed.

(** The steps of [process_single_file] after a transcription that gave a
    text, with the state between them. *)
Lemma process_single_file_steps (audio_file target_lang tts src_text : string) (s s1 : State) :
  speech_to_text w cfg audio_file s = (Ok src_text, s1) →
  src_text ≠ "" →
  ∃ detected s2 translated s3 tts_file s5,
    (if use_lang_detect cfg then detect_language w src_text else mret PyNone) s1
      = (Ok detected, s2)
    ∧ translate_text w src_text target_lang s2 = (Ok translated, s3)
    ∧ synthesis_step w tts translated target_lang (translated_path w (w_time w (trace s3)))
        (log (Invoke time_time []) s3) = (Ok tts_file, s5)
    ∧ process_single_file w cfg audio_file target_lang tts s =
        (Ok (<["error" := PyNone]>
               (<["source_text" := PyStr src_text]>
                  (<["detected_lang" := detected]>
                     (<["translated" := PyStr translated]>
                        (<["tts_file" := tts_file]> ∅))))), s5).
Proof.
  intros E Hne.
  assert (String.eqb src_text "" = false) as Hf by by apply String.eqb_neq.
  assert (never_raises
    (if use_lang_detect cfg then detect_language w src_text else mret PyNone)) as Hd
    by auto with total.
  destruct (Hd s1) as (detected & s2 & E2).
  destruct (translate_text_total w src_text target_lang s2) as (translated & s3 & E3).
  assert (never_raises (synthesis_step w tts translated target_lang
                          (translated_path w (w_time w (trace s3))))) as Ht
    by (unfold synthesis_step; auto with total).
  destruct (Ht (log (Invoke time_time []) s3)) as (tts_file & s5 & E5).
  exists detected, s2, translated, s3, tts_file, s5.
  split; [done |]. split; [done |]. split; [done |].
  unfold process_single_file. unfold mbind, M_bind, bind in *. rewrite E, Hf.
  unfold mbind, M_bind, bind in *. rewrite E2, E3.
  unfold now, extcall. unfold synthesis_step, translated_path in E5.
  unfold mbind, M_bind, bind in E5. by rewrite E5.
Qed.

(** X4: with language detection switched off, [process_single_file] never
    calls the detection backend, and the record it returns holds no
    detected language. *)
Theorem detection_off_is_never_called (audio_file target_lang tts : string) (s s' : State)
    (r : Result (gmap string PyVal)) :
  use_lang_detect cfg = false →
  process_single_file w cfg audio_file target_lang tts s = (r, s') →
  call_count langdetect_detect (trace s') = call_count langdetect_detect (trace s)
  ∧ ∀ res, r = Ok res →
      res !! "detected_lang" = None ∨ res !! "detected_lang" = Some PyNone.
Proof.
  intros Hoff Hrun. split.
  - eapply emits_only_call_count; [| exact Hrun].
    unfold process_single_file, translate_text, now, tts_gtts_and_save, tts_pyttsx3_and_save,
      convert_to_mp3.
    rewrite Hoff.
    apply emits_only_bind; [apply speech_to_text_emits; by intros [| | | | [] | | |] |].
    intros src_text. auto 30 with events.
  - intros res ->.
    destruct (speech_to_text w cfg audio_file s) as [[src_text | e] s1] eqn:E.
    + destruct (decide (src_text = "")) as [-> | Hne].
      * rewrite (process_single_file_empty w cfg _ _ _ _ _ E) in Hrun.
        injection Hrun as <- _. by left.
      * destruct (process_single_file_steps audio_file target_lang tts src_text s s1 E Hne)
          as (detected & s2 & translated & s3 & tts_file & s5 & Hd & _ & _ & Hrec).
        rewrite Hrec in Hrun. injection Hrun as <- _.
        rewrite Hoff in Hd. injection Hd as <- _. by right.
    + unfold process_single_file, mbind, M_bind, bind in Hrun. by rewrite E in Hrun.
Qed.

End PipelineFacts.

Section PipelineDegraded.

Variable w : World.
Variable cfg : Settings.

Lemma translate_text_down (text target_lang : string) (s s' : State) (r : Result string) :
  (∀ h text', ∃ e, w_translate w h target_lang text' = Raise e) →
  translate_text w text target_lang s = (r, s') →
  r = Ok ""
  ∧ call_count gTTS_create (trace s') = call_count gTTS_create (trace s)
  ∧ call_count gTTS_save (trace s') = call_count gTTS_save (trace s).
Proof.
  intros Hdown. unfold translate_text. destruct (String.eqb text ""); mrun.
  - by intros [= <- <-].
  - destruct (Hdown (trace s) text) as [e ->]. simpl. intros [= <- <-]. simpl.
    rewrite !call_count_app. simpl. split; [done |]. lia.
Qed.

(** X5: under gTTS, while the translation service is down, every record
    [process_single_file] returns has the translation [''] and no audio
    file, and gTTS is not called at all: the guard of line 150 stops the
    empty translation. *)
Theorem translation_down_skips_gtts (audio_file target_lang : string) (s s' : State)
    (r : Result (gmap string PyVal)) :
  (∀ h text, ∃ e, w_translate w h target_lang text = Raise e) →
  process_single_file w cfg audio_file target_lang "gTTS (online)" s = (r, s') →
  call_count gTTS_create (trace s') = call_count gTTS_create (trace s)
  ∧ call_count gTTS_save (trace s') = call_count gTTS_save (trace s)
  ∧ ∀ res, r = Ok res →
      res !! "translated" = Some (PyStr "")
      ∧ (res !! "tts_file" = None ∨ res !! "tts_file" = Some PyNone).
Proof.
  intros Hdown Hrun.
  destruct (speech_to_text w cfg audio_file s) as [[src_text | e] s1] eqn:E.
  - pose proof (speech_to_text_no_downstream w cfg _ _ _ _ gTTS_create E) as Hc1.
    pose proof (speech_to_text_no_downstream w cfg _ _ _ _ gTTS_save E) as Hc2.
    destruct (decide (src_text = "")) as [-> | Hne].
    + rewrite (process_single_file_empty w cfg _ _ _ _ _ E) in Hrun.
      injection Hrun as <- <-.
      split; [apply Hc1; set_solver |]. split; [apply Hc2; set_solver |].
      intros res [= <-]. split; [done | by left].
    + destruct (process_single_file_steps w cfg audio_file target_lang "gTTS (online)"
                  src_text s s1 E Hne)
        as (detected & s2 & translated & s3 & tts_file & s5 & Hd & Ht & Hs & Hrec).
      rewrite Hrec in Hrun. injection Hrun as <- <-.
      apply (translate_text_down _ _ _ _ _ Hdown) in Ht as (Htr & Hg1 & Hg2).
      injection Htr as ->.
      unfold synthesis_step in Hs. simpl in Hs. injection Hs as <- <-.
      assert (emits_only (not_call gTTS_create)
                (if use_lang_detect cfg then detect_language w src_text else mret PyNone)) as Hd1
        by (unfold detect_language; auto with events).
      assert (emits_only (not_call gTTS_save)
                (if use_lang_detect cfg then detect_language w src_text else mret PyNone)) as Hd2
        by (unfold detect_language; auto with events).
      apply (emits_only_call_count _ _ _ _ _ Hd1) in Hd as Hc3.
      apply (emits_only_call_count _ _ _ _ _ Hd2) in Hd as Hc4.
      simpl. rewrite !call_count_app. simpl.
      split; [rewrite Hg1, Hc3, Hc1; [lia | set_solver] |].
      split; [rewrite Hg2, Hc4, Hc2; [lia | set_solver] |].
      intros res [= <-]. split; [done | by right].
  - unfold process_single_file, mbind, M_bind, bind in Hrun. rewrite E in Hrun.
    injection Hrun as <- <-.
    split; [eapply speech_to_text_no_downstream; [exact E | set_solver] |].
    split; [eapply speech_to_text_no_downstream; [exact E | set_solver] |].
    done.
Qed.

(** X6: the name of the audio file comes from the clock alone.  While the
    clock reads [t], whatever file is processed, a record that names an
    audio file names [translated_<t>.mp3] in the temporary directory, or
    the path line 272 derives from it: files processed within the same
    second share their output file. *)
Theorem output_file_named_by_clock (t : N) (audio_file target_lang tts : string)
    (s s' : State) (res : gmap string PyVal) (p : string) :
  (∀ h, w_time w h = t) →
  process_single_file w cfg audio_file target_lang tts s = (Ok res, s') →
  res !! "tts_file" = Some (PyStr p) →
  p = translated_path w t ∨ p = replace_mp3_wav (translated_path w t).
Proof.
  intros Hclock Hrun Hp.
  destruct (speech_to_text w cfg audio_file s) as [[src_text | e] s1] eqn:E.
  - destruct (decide (src_text = "")) as [-> | Hne].
    + rewrite (process_single_file_empty w cfg _ _ _ _ _ E) in Hrun.
      injection Hrun as <- _. done.
    + destruct (process_single_file_steps w cfg audio_file target_lang tts src_text s s1 E Hne)
        as (detected & s2 & translated & s3 & tts_file & s5 & _ & _ & Hs & Hrec).
      rewrite Hrec in Hrun. injection Hrun as <- _.
      rewrite Hclock in Hs.
      apply synthesis_step_result in Hs as [Hs | [Hs | Hs]]; injection Hs as ->;
        simplify_map_eq; auto.
  - unfold process_single_file, mbind, M_bind, bind in Hrun. by rewrite E in Hrun.
Qed.

End PipelineDegraded.

Lemma detection_off_is_never_called_witness :
  call_count langdetect_detect
    (trace (process_single_file calm_world (mkSettings "Google Web Speech (online)" false)
              "hello.wav" "es" "gTTS (online)" initial).2) = 0
  ∧ result_field "detected_lang"
      (process_single_file calm_world (mkSettings "Google Web Speech (online)" false)
         "hello.wav" "es" "gTTS (online)" initial) = Some PyNone.
Proof.
  destruct (detection_off_is_never_called calm_world
              (mkSettings "Google Web Speech (online)" false) "hello.wav" "es" "gTTS (online)"
              initial _ _ eq_refl eq_refl) as [Hcount _].
  split; [exact Hcount | by vm_compute].
Defined.

Lemma translate_text_outcome_witness :
  translate_text offline_world "hello" "es" initial =
    (Ok "", mkState [Invoke GoogleTranslator_translate ["es"; "hello"];
                     st_warning "Translation error: no route to host"] []).
Proof.
  apply (proj1 (translate_text_outcome offline_world "hello" "es" initial
                  ltac:(discriminate))).
Defined.

Lemma translation_down_skips_gtts_witness :
  call_count gTTS_create
    (trace (process_single_file untranslated_world google_cfg "hello.wav" "es"
              "gTTS (online)" initial).2) = 0.
Proof.
  refine (proj1 (translation_down_skips_gtts untranslated_world google_cfg "hello.wav" "es"
                   initial _ _ _ eq_refl)).
  intros h text. by eexists.
Defined.

Lemma output_file_named_by_clock_witness :
  "/tmp/translated_1700000000.mp3" = translated_path calm_world 1700000000
  ∨ "/tmp/translated_1700000000.mp3" = replace_mp3_wav (translated_path calm_world 1700000000).
Proof.
  pose (run := process_single_file calm_world google_cfg "hello.wav" "es" "gTTS (online)"
                 initial).
  apply (output_file_named_by_clock calm_world google_cfg 1700000000 "hello.wav" "es"
           "gTTS (online)" initial run.2
           (match run.1 with Ok res => res | Raise _ => ∅ end)).
  - done.
  - by vm_compute.
  - by vm_compute.
Defined.

(** ** More on the live loop (lines 359-420) *)

Section LiveFacts.

Variable w : World.
Variable cfg : Settings.

Lemma live_cycle_keeps_flags (target_lang : string) (chunk_sec pause_sec : nat) (tts : string) :
  keeps_flags (live_cycle w cfg target_lang chunk_sec pause_sec tts).
Proof.
  unfold live_cycle. apply keeps_flags_try; [apply live_cycle_body_keeps_flags |].
  intros e. auto with flags.
Qed.

(** A cycle captures from the microphone once, at its start. *)
Lemma live_cycle_captures_once (target_lang : string) (chunk_sec pause_sec : nat) (tts : string)
    (s s' : State) (r : Result unit) :
  live_cycle w cfg target_lang chunk_sec pause_sec tts s = (r, s') →
  call_count Microphone_record (trace s') = S (call_count Microphone_record (trace s)).
Proof.
  unfold live_cycle, live_cycle_body.
  set (rest := λ audio : AudioData, _ ≫= _).
  assert (∀ audio, emits_only (not_call Microphone_record) (rest audio)) as Hrest.
  { intros audio. unfold rest, detect_language, translate_text, now, tts_gtts_and_save,
      tts_pyttsx3_and_save, convert_to_mp3.
    assert (∀ p, emits_only (not_call Microphone_record) (speech_to_text w cfg p)) as Hstt
      by (intros p; apply speech_to_text_emits; by intros [| | | | [] | | |]).
    auto 30 with events. }
  unfold try_except, mbind at 1, M_bind at 1, bind at 1, extcall at 1.
  destruct (w_mic_record w (trace s) chunk_sec) as [audio | e]; simpl.
  - destruct (rest audio (log (Invoke Microphone_record [pretty chunk_sec]) s))
      as [[[] | e] s1] eqn:E; apply Hrest in E as (added & E & Hadded).
    + intros [= <- <-]. rewrite E. simpl.
      rewrite !call_count_app, (call_count_not_called _ _ Hadded). simpl. lia.
    + intros [= <- <-]. simpl. rewrite E. simpl.
      rewrite !call_count_app, (call_count_not_called _ _ Hadded). simpl. lia.
  - intros [= <- <-]. simpl. rewrite !call_count_app. simpl. lia.
Qed.

(** X7: nothing inside the loop ends it.  While the controller leaves the
    flag true, the loop is still running after any number of cycles,
    silent chunks and failed cycles included, and it has captured exactly
    one chunk per cycle. *)
Theorem live_while_runs_until_cleared (fuel g : nat) (target_lang : string)
    (chunk_sec pause_sec : nat) (tts : string) (s : State) :
  (∀ h, w_concurrent_stop w h = false) →
  get_flag g s = true →
  ∃ s', live_while w cfg fuel g target_lang chunk_sec pause_sec tts s = (Ok StillRunning, s')
    ∧ get_flag g s' = true
    ∧ call_count Microphone_record (trace s')
      = call_count Microphone_record (trace s) + fuel.
Proof.
  intros Hstop. revert s. induction fuel as [| fuel IH]; intros s Hflag.
  - exists s. repeat split; [done | simpl; lia].
  - destruct (live_cycle_total w cfg target_lang chunk_sec pause_sec tts s) as ([] & s1 & E).
    pose proof (live_cycle_keeps_flags _ _ _ _ _ _ _ E) as Hflags.
    pose proof (live_cycle_captures_once _ _ _ _ _ _ _ E) as Hcount.
    destruct (IH s1) as (s' & Erest & Hflag' & Hcount').
    { unfold get_flag in *. by rewrite Hflags. }
    exists s'. cbn [live_while]. unfold mbind, M_bind, bind, load_run.
    rewrite Hstop, Hflag, E, Erest. repeat split; [done | lia].
Qed.


(** X9: a chunk in which nothing is recognized ends the cycle after the
    pause: no translation, no synthesis, no playback thread, and no
    warning from the handler of the loop. *)
Theorem silent_chunk_is_skipped (target_lang : string) (chunk_sec pause_sec : nat)
    (tts tf : string) (audio : AudioData) (s s4 : State) :
  let s1 := log (Invoke Microphone_record [pretty chunk_sec]) s in
  let s2 := log (Invoke NamedTemporaryFile [".wav"]) s1 in
  let s3 := log (Invoke write_wav_data [tf]) s2 in
  w_mic_record w (trace s) chunk_sec = Ok audio →
  w_tempfile w (trace s1) ".wav" = Ok tf →
  w_write_wav w (trace s2) tf audio = Ok tt →
  speech_to_text w cfg tf s3 = (Ok "", s4) →
  live_cycle w cfg target_lang chunk_sec pause_sec tts s = (Ok tt, log (time_sleep pause_sec) s4)
  ∧ ∀ api, api ∈ downstream_apis →
      call_count api (trace (log (time_sleep pause_sec) s4)) = call_count api (trace s).
Proof.
  intros s1 s2 s3 Hrec Htmp Hwrite Hstt. split.
  - unfold live_cycle, live_cycle_body, try_except, mbind, M_bind, bind, extcall.
    rewrite Hrec. fold s1. rewrite Htmp. fold s2. rewrite Hwrite. fold s3. by rewrite Hstt.
  - intros api Hapi.
    pose proof (speech_to_text_no_downstream w cfg tf s3 s4 (Ok "") api Hstt Hapi) as Hsame.
    cbn [log trace]. rewrite call_count_app, Hsame. unfold s3, s2, s1. cbn [log trace].
    rewrite !call_count_app.
    assert (call_count api [Invoke Microphone_record [pretty chunk_sec]] = 0
            ∧ call_count api [Invoke NamedTemporaryFile [".wav"]] = 0
            ∧ call_count api [Invoke write_wav_data [tf]] = 0
            ∧ call_count api [time_sleep pause_sec] = 0) as (-> & -> & -> & ->); [| lia].
    unfold downstream_apis in Hapi.
    repeat (apply elem_of_cons in Hapi as [-> | Hapi]; [done |]).
    by apply elem_of_nil in Hapi.
Qed.

End LiveFacts.

Lemma live_while_runs_until_cleared_witness :
  ∃ s', live_while glitch_world google_cfg 3 0 "es" 4 0 "gTTS (online)" (mkState [] [true])
        = (Ok StillRunning, s')
    ∧ get_flag 0 s' = true
    ∧ call_count Microphone_record (trace s') = 3.
Proof.
  apply (live_while_runs_until_cleared glitch_world google_cfg 3 0 "es" 4 0 "gTTS (online)"
           (mkState [] [true])); done.
Defined.


Lemma silent_chunk_is_skipped_witness :
  live_cycle silent_world google_cfg "es" 4 2 "gTTS (online)" (mkState [] [true]) =
    (Ok tt,
     mkState [Invoke Microphone_record ["4"]; Invoke NamedTemporaryFile [".wav"];
              Invoke write_wav_data ["/tmp/tmpchunk.wav"];
              Invoke AudioFile_record ["/tmp/tmpchunk.wav"]; Invoke recognize_google [];
              time_sleep 2] [true]).
Proof.
  apply (proj1 (silent_chunk_is_skipped silent_world google_cfg "es" 4 2 "gTTS (online)"
                  "/tmp/tmpchunk.wav" [] (mkState [] [true])
                  (mkState [Invoke Microphone_record ["4"]; Invoke NamedTemporaryFile [".wav"];
                            Invoke write_wav_data ["/tmp/tmpchunk.wav"];
                            Invoke AudioFile_record ["/tmp/tmpchunk.wav"];
                            Invoke recognize_google []] [true])
                  eq_refl eq_refl eq_refl eq_refl)).
Defined.

(** ** More on the live controls (lines 356-357, 423-433) *)

Lemma insert_last_flag (l : list bool) (b b' : bool) :
  <[length l := b']> (l ++ [b]) = l ++ [b'].
Proof. by rewrite insert_app_r_alt, Nat.sub_diag by lia. Qed.

(** One run of the script adds one dictionary and writes to no other. *)
Lemma live_controls_flags (ui : Clicks) (s : State) :
  ∃ b, flags (live_controls ui s).2 = flags s ++ [b].
Proof.
  unfold live_controls, mbind, M_bind, bind, new_live_flag.
  destruct (live_mode ui); [| by exists false].
  unfold start_handler.
  destruct (start_clicked ui && negb _); mrun.
  - unfold stop_handler. simpl.
    destruct (stop_clicked ui && _); mrun; rewrite !insert_last_flag; by eexists.
  - unfold stop_handler.
    destruct (stop_clicked ui && _); mrun; rewrite ?insert_last_flag; by eexists.
Qed.

Lemma live_controls_returns (ui : Clicks) (s : State) :
  (live_controls ui s).1 = Ok tt.
Proof.
  unfold live_controls, mbind, M_bind, bind, new_live_flag, start_handler, stop_handler.
  destruct (live_mode ui); [| done].
  destruct (start_clicked ui && _); mrun; by destruct (stop_clicked ui && _).
Qed.

Lemma script_runs_cons (ui : Clicks) (rest : list Clicks) (s : State) :
  script_runs (ui :: rest) s = script_runs rest (live_controls ui s).2.
Proof.
  cbn [script_runs]. unfold mbind, M_bind, bind.
  pose proof (live_controls_returns ui s) as E.
  destruct (live_controls ui s) as [[[] | e] s1]; by simpl in E.
Qed.

(** X10: the flag of a loop belongs to the run that started it.  Runs of
    the script add one new dictionary each and never write to an older
    one, so no later click, Stop included, changes the flag a running
    loop reads. *)
Theorem script_runs_keep_older_flags (uis : list Clicks) (s : State) :
  ∃ new, flags (script_runs uis s).2 = flags s ++ new
         ∧ length new = length uis
         ∧ ∀ g, g < length (flags s) → get_flag g (script_runs uis s).2 = get_flag g s.
Proof.
  assert (∃ new, flags (script_runs uis s).2 = flags s ++ new ∧ length new = length uis)
    as (new & E & Hlen).
  { revert s. induction uis as [| ui rest IH]; intros s.
    - exists []. by rewrite app_nil_r.
    - rewrite script_runs_cons.
      destruct (live_controls_flags ui s) as [b Hb].
      destruct (IH (live_controls ui s).2) as (new & E & Hlen).
      exists (b :: new). split; [by rewrite E, Hb, <- app_assoc | simpl; by rewrite Hlen]. }
  exists new. split; [done |]. split; [done |].
  intros g Hg. unfold get_flag. by rewrite E, lookup_app_l.
Qed.

Lemma live_controls_threads (ui : Clicks) (s : State) :
  length (live_threads (trace (live_controls ui s).2))
  = length (live_threads (trace s)) + (if live_mode ui && start_clicked ui then 1 else 0).
Proof.
  destruct (live_mode ui) eqn:Hlive; simpl.
  - destruct (start_clicked ui) eqn:Hstart.
    + rewrite (live_controls_start_spawns ui s Hlive Hstart), length_app. simpl. lia.
    + unfold live_controls, mbind, M_bind, bind, new_live_flag, start_handler, stop_handler.
      rewrite Hlive, Hstart. simpl.
      destruct (stop_clicked ui && _); mrun; rewrite ?live_threads_app; simpl;
        rewrite ?length_app; simpl; lia.
  - unfold live_controls, mbind, M_bind, bind, new_live_flag. rewrite Hlive. simpl. lia.
Qed.

(** X11: every click on Start in live mode starts a loop thread: after
    any sequence of runs, the number of threads started is the number of
    runs with the live box ticked and Start clicked. *)
Theorem one_thread_per_start_click (uis : list Clicks) (s : State) :
  length (live_threads (trace (script_runs uis s).2))
  = length (live_threads (trace s))
    + length (filter (λ ui, live_mode ui && start_clicked ui = true) uis).
Proof.
  revert s. induction uis as [| ui rest IH]; intros s; [simpl; lia |].
  rewrite script_runs_cons, IH, live_controls_threads, filter_cons.
  destruct (decide (live_mode ui && start_clicked ui = true)) as [-> | Hno].
  - simpl. lia.
  - apply not_true_is_false in Hno. rewrite Hno. lia.
Qed.

(** ** More on the batch loop (lines 327-331) *)

Section BatchFacts.

Variable w : World.
Variable cfg : Settings.

(** X12: the batch loop works through its list from left to right and
    stops at the first item that raises: processing [xs ++ ys] is
    processing [xs] and then, if that returned, [ys] from the state
    reached, the results being appended. *)
Theorem run_batch_app (xs ys : list string) (target tts : string) (s : State) :
  run_batch w cfg (xs ++ ys) target tts s =
    match run_batch w cfg xs target tts s with
    | (Ok results1, s1) =>
        match run_batch w cfg ys target tts s1 with
        | (Ok results2, s2) => (Ok (results1 ++ results2), s2)
        | (Raise e, s2) => (Raise e, s2)
        end
    | (Raise e, s1) => (Raise e, s1)
    end.
Proof.
  revert s. induction xs as [| x xs IH]; intros s.
  - change (run_batch w cfg [] target tts s) with (Ok ([] : list (string * gmap string PyVal)), s).
    rewrite app_nil_l.
    by destruct (run_batch w cfg ys target tts s) as [[results | e] s2].
  - rewrite <- app_comm_cons, !run_batch_cons.
    destruct (process_single_file w cfg x target tts s) as [[res | e] s0]; [| done].
    rewrite IH.
    destruct (run_batch w cfg xs target tts s0) as [[results1 | e] s1]; [| done].
    by destruct (run_batch w cfg ys target tts s1) as [[results2 | e] s2].
Qed.

End BatchFacts.

(** ** The rest of the page (lines 176-181, 225-242, 292-352) *)

Ltac prun :=
  unfold mbind, P_bind, mret, P_ret, bindP, retP, try_exceptP, finallyP, lift, show, hostcall,
    M_bind, M_ret, bind, ret, try_except, emit, extcall in *;
  simpl in *.

Lemma page_count_app (Q : PageEvent → bool) (l1 l2 : list PageEvent) :
  page_count Q (l1 ++ l2) = page_count Q l1 + page_count Q l2.
Proof. unfold page_count. by rewrite List.filter_app, length_app. Qed.

Section PageFacts.

Variable w : World.
Variable cfg : Settings.
Variable host : Host.

(** X13: [play_audio_file] never raises.  When the file cannot be decoded
    or the playback fails, the last thing reported is a warning that
    carries the message of the exception and the path of the file. *)
Theorem play_audio_file_never_raises (path : string) (pg : Page) :
  ∃ pg', play_audio_file w host path pg = (Ok tt, pg')
    ∧ ∀ e, w_from_file w (trace (core pg)) path = Raise e
           ∨ (∃ audio, w_from_file w (trace (core pg)) path = Ok audio
                ∧ h_play host (trace (log (Invoke AudioSegment_from_file [path]) (core pg)))
                    (page_log pg) audio = Raise e) →
           last (trace (core pg')) =
             Some (st_warning ("Audio playback error: " +:+ exn_str e
                               +:+ ". File saved at " +:+ path)).
Proof.
  unfold play_audio_file. prun.
  destruct (w_from_file w (trace (core pg)) path) as [audio | e0] eqn:Hfile; simpl.
  - destruct (h_play host _ (page_log pg) audio) as [[] | e1] eqn:Hplay; simpl.
    + eexists. split; [done |]. intros e [? | (audio' & [= <-] & Hraise)]; [done |].
      by rewrite Hplay in Hraise.
    + eexists. split; [done |]. intros e [? | (audio' & [= <-] & Hraise)]; [done |].
      rewrite Hplay in Hraise. injection Hraise as <-. simpl. by rewrite last_snoc.
  - eexists. split; [done |]. intros e [[= <-] | (audio & ? & _)]; [| done].
    simpl. by rewrite last_snoc.
Qed.


(** X15: a recording never reaches the pipeline.  [recorded_tempfile] is
    set to [None] at line 196 in every run and filled only in the run in
    which "Start recording" reads true; in the run started by a click on
    "Run Translation Pipeline" that button reads false, so in the
    microphone mode the pipeline finds no input, reports it, and calls
    no backend. *)
Theorem recording_is_never_translated (ui : MainInputs) (pg : Page) :
  in_mode ui = "Record from microphone" →
  in_run_clicked ui = true →
  in_record_clicked ui = false →
  in_live_mode ui = false →
  script_main w cfg host ui pg =
    (Ok [],
     mkPage (log (st_error "No audio inputs provided.") (core pg))
       (page_log pg ++
        [st_info "Recording uses your microphone via PyAudio. If you have trouble, record externally and upload the file."])).
Proof.
  intros Hmode Hrun Hrec Hlive. unfold script_main. rewrite Hmode, Hrun, Hrec, Hlive.
  reflexivity.
Qed.

End PageFacts.

Lemma recording_is_never_translated_witness :
  script_main calm_world google_cfg kind_host
    (mkMainInputs "Record from microphone" false "" [] 6 false true true "es" "gTTS (online)")
    blank_page =
    (Ok [],
     mkPage (mkState [st_error "No audio inputs provided."] [])
       [st_info "Recording uses your microphone via PyAudio. If you have trouble, record externally and upload the file."]).
Proof.
  apply (recording_is_never_translated calm_world google_cfg kind_host
           (mkMainInputs "Record from microphone" false "" [] 6 false true true "es"
              "gTTS (online)") blank_page); reflexivity.
Defined.

Ltac pcount := simpl; rewrite ?page_count_app; unfold page_count; simpl; lia.

Section PageFacts2.

Variable w : World.
Variable cfg : Settings.
Variable host : Host.

(** The move into the working directory never raises, and calls
    [os.replace] once. *)
Lemma save_to_working_dir_total (tts_file : string) (saved : string → string) (pg : Page) :
  ∃ pg', save_to_working_dir host tts_file saved pg = (Ok tt, pg')
    ∧ page_count is_audio (page_log pg') = page_count is_audio (page_log pg)
    ∧ page_count is_replace (page_log pg') = S (page_count is_replace (page_log pg)).
Proof.
  unfold save_to_working_dir. prun.
  destruct (h_replace host _ _ _ _) as [[] | e]; simpl; eexists; (split; [done |]); simpl;
    pcount.
Qed.

(** X16: the branch for typed text lets an exception out at one place
    only, the player of line 311: when it ends by an exception, the last
    thing on the page is that player and the exception is the one
    [st.audio] raised there.  With an empty text it shows one error and
    calls nothing.  It moves a file into the working directory at most
    once, and not at all when "Save generated audio files" is not ticked
    or the player raised. *)
Theorem typed_text_raises_only_at_player (typed_text translate_target tts_choice : string)
    (save_output : bool) (pg : Page) :
  ∃ r pg', translate_typed_text w host typed_text translate_target tts_choice save_output pg
           = (r, pg')
    ∧ (typed_text = "" →
         r = Ok tt
         ∧ pg' = mkPage (log (st_error "Type text or provide audio.") (core pg)) (page_log pg))
    ∧ (∀ e, r = Raise e →
         ∃ shown path, page_log pg' = shown ++ [st_audio path]
                       ∧ h_audio host (trace (core pg')) shown path = Raise e)
    ∧ page_count is_replace (page_log pg') ≤ S (page_count is_replace (page_log pg))
    ∧ (save_output = false ∨ r ≠ Ok tt →
         page_count is_replace (page_log pg') = page_count is_replace (page_log pg)).
Proof.
  unfold translate_typed_text.
  destruct (String.eqb typed_text "") eqn:Hempty.
  - eexists _, _. split; [reflexivity |]. split; [done |]. split; [done |]. simpl.
    split; [lia | done].
  - apply String.eqb_neq in Hempty.
    destruct (translate_text_total w typed_text translate_target (core pg))
      as (translated & s1 & E1).
    set (s2 := log (Invoke time_time []) (log (st_write translated) s1)).
    set (out_path := path_join (tempdir w)
                       ("translated_" +:+ pretty (w_time w (trace s1 ++ [st_write translated]))
                        +:+ ".mp3")).
    assert (never_raises
              (if String.prefix "gTTS" tts_choice
               then tts_gtts_and_save w translated translate_target out_path
               else tts_pyttsx3_and_save w translated (replace_mp3_wav out_path))) as Htts
      by auto with total.
    destruct (Htts s2) as (tts_file & s3 & E3).
    unfold mbind, P_bind, bindP, lift, show, mret, P_ret, retP, emit. simpl.
    rewrite E1. simpl. fold out_path s2. rewrite E3. simpl.
    destruct (truthy tts_file); simpl.
    + unfold show_audio, hostcall. simpl.
      destruct (h_audio host (trace s3) _ (py_str tts_file)) as [[] | e] eqn:Haudio.
      * destruct save_output.
        -- match goal with
           | |- context [save_to_working_dir host ?f ?m ?p] =>
               destruct (save_to_working_dir_total f m p) as (pg' & -> & _ & Hcount)
           end.
           exists (Ok tt), pg'. split; [done |]. split; [done |]. split; [done |].
           rewrite Hcount. split; [pcount |]. by intros [? | ?].
        -- eexists _, _. split; [done |]. split; [done |]. split; [done |]. simpl.
           split; [pcount |]. intros _. pcount.
      * eexists _, _. split; [done |]. split; [done |]. split.
        { intros e' [= <-]. by eexists _, _. }
        simpl. split; [pcount |]. intros _. pcount.
    + eexists _, _. split; [done |]. split; [done |]. split; [done |]. simpl.
      split; [pcount |]. intros _. pcount.
Qed.

(** X17: what the display loop shows of one result under its header lets
    an exception out at one place only, the player of line 345, and then
    the exception is the one [st.audio] raised on the audio file of the
    result; a failed move is passed over.  A player is asked for exactly
    when the result carries no error and names an audio file; the file is
    moved exactly when, besides, "Save generated audio files" is ticked and
    the player did not raise.  A result with an error shows that error and
    nothing else. *)
Theorem result_display_raises_only_at_player (save_output : bool) (res : gmap string PyVal)
    (pg : Page) :
  ∃ r pg', show_result_body host save_output res pg = (r, pg')
    ∧ page_count is_audio (page_log pg')
      = page_count is_audio (page_log pg) + (if playable res then 1 else 0)
    ∧ page_count is_replace (page_log pg')
      = page_count is_replace (page_log pg)
        + match r with
          | Ok _ => if playable res && save_output then 1 else 0
          | Raise _ => 0
          end
    ∧ (∀ e, r = Raise e →
         playable res = true
         ∧ page_log pg' = page_log pg ++ [st_audio (py_str (res_get res "tts_file"))]
         ∧ h_audio host (trace (core pg')) (page_log pg) (py_str (res_get res "tts_file"))
           = Raise e)
    ∧ (truthy (res_get res "error") = true →
         r = Ok tt
         ∧ pg' = mkPage (log (st_error (py_str (res_get res "error"))) (core pg)) (page_log pg)).
Proof.
  unfold show_result_body, playable.
  unfold mbind, P_bind, bindP, lift, show, mret, P_ret, retP, emit. simpl.
  destruct (truthy (res_get res "error")); simpl.
  - eexists _, _. split; [done |]. simpl. split; [pcount |]. split; [pcount |].
    split; [done |]. done.
  - destruct (truthy (res_get res "tts_file")); simpl.
    + unfold show_audio, hostcall. simpl.
      destruct (h_audio host _ (page_log pg) (py_str (res_get res "tts_file")))
        as [[] | e] eqn:Haudio.
      * destruct save_output; simpl.
        -- match goal with
           | |- context [save_to_working_dir host ?f ?m ?p] =>
               destruct (save_to_working_dir_total f m p) as (pg' & -> & Ha & Hr)
           end.
           exists (Ok tt), pg'. split; [done |]. rewrite Ha, Hr. simpl.
           split; [pcount |]. split; [pcount |]. split; done.
        -- eexists _, _. split; [done |]. simpl.
           split; [pcount |]. split; [pcount |]. split; done.
      * eexists _, _. split; [done |]. simpl.
        split; [pcount |]. split; [pcount |]. split; [| done].
        intros e' [= <-]. done.
    + eexists _, _. split; [done |]. simpl.
      split; [pcount |]. split; [pcount |]. split; done.
Qed.

(** X18: from upload to message.  When the one uploaded file transcribes
    to the empty text, the batch block (lines 318-331) returns the one
    pair of its path and a record, and what the display loop shows of
    that record under its header (lines 336-337) is the error
    [STT failed or empty] and nothing else: no player is asked for and no
    file is moved, whatever the save option and the host are. *)
Theorem silent_upload_is_reported (audio_path translate_target tts_choice : string)
    (save_output : bool) (pg : Page) (s1 : State) :
  speech_to_text w cfg audio_path (core pg) = (Ok "", s1) →
  ∃ res,
    run_translation_pipeline w cfg None [audio_path] translate_target tts_choice (core pg)
      = (Ok [(audio_path, res)], s1)
    ∧ show_result_body host save_output res (mkPage s1 (page_log pg))
      = (Ok tt, mkPage (log (st_error "STT failed or empty") s1) (page_log pg)).
Proof.
  intros Hstt. exists stt_failed_record. split; [| reflexivity].
  unfold run_translation_pipeline, collect_inputs.
  unfold mbind at 1, M_bind at 1, bind at 1, mret at 1, M_ret at 1, ret at 1.
  by rewrite run_batch_cons, (process_single_file_empty w cfg _ _ _ _ _ Hstt).
Qed.

End PageFacts2.

Lemma silent_upload_is_reported_witness :
  ∃ res,
    run_translation_pipeline silent_world google_cfg None ["/tmp/up/silence.wav"] "es"
      "gTTS (online)" initial
      = (Ok [("/tmp/up/silence.wav", res)],
         mkState [Invoke AudioFile_record ["/tmp/up/silence.wav"]; Invoke recognize_google []] [])
    ∧ show_result_body harsh_host true res
        (mkPage (mkState [Invoke AudioFile_record ["/tmp/up/silence.wav"];
                          Invoke recognize_google []] []) [])
      = (Ok tt,
         mkPage (mkState [Invoke AudioFile_record ["/tmp/up/silence.wav"];
                          Invoke recognize_google []; st_error "STT failed or empty"] []) []).
Proof.
  apply (silent_upload_is_reported silent_world google_cfg harsh_host "/tmp/up/silence.wav"
           "es" "gTTS (online)" true blank_page
           (mkState [Invoke AudioFile_record ["/tmp/up/silence.wav"];
                     Invoke recognize_google []] [])).
  reflexivity.
Defined.

(** The player does raise.  With the translation service down and pyttsx3
    chosen, the engine is handed the empty text and its path goes to
    [st.audio]; on a host where no file is found there, the exception
    leaves the branch for typed text. *)
Lemma typed_text_player_failure :
  (translate_typed_text untranslated_world bare_host "hello" "es" "pyttsx3 (offline)" false
     blank_page).1
  = Raise (Exception "Error opening '/tmp/translated_1700000000.wav'").
Proof. by vm_compute. Qed.

(** So does the one of a result: on such a host the display of a result
    that names an audio file ends at its player, before the move. *)
Lemma result_player_failure :
  let res := <["error" := PyNone]> (<["tts_file" := PyStr "/tmp/translated_1700000000.mp3"]> ∅) in
  let run := show_result_body bare_host true res blank_page in
  run.1 = Raise (Exception "Error opening '/tmp/translated_1700000000.mp3'")
  ∧ page_log run.2 = [st_audio "/tmp/translated_1700000000.mp3"].
Proof. by vm_compute. Qed.

(** ** Paths (lines 267, 272, 314, 348) *)

Lemma after_last_slash_idem (p name : string) :
  after_last_slash p = Some name → after_last_slash name = None.
Proof.
  revert name. induction p as [| c rest IH]; intros name; [done |].
  cbn [after_last_slash]. destruct (after_last_slash rest) as [name' |] eqn:E.
  - intros [= <-]. by apply IH.
  - destruct (Ascii.eqb c "/"); [by intros [= <-] | done].
Qed.

Lemma basename_no_slash (p : string) : after_last_slash (basename p) = None.
Proof.
  unfold basename. destruct (after_last_slash p) as [name |] eqn:E; simpl; [| done].
  by eapply after_last_slash_idem.
Qed.

Lemma after_last_slash_app (a b : string) :
  after_last_slash b = None → after_last_slash (a +:+ "/" +:+ b) = Some b.
Proof.
  intros Hb. induction a as [| c a IH].
  - rewrite append_empty, append_String, append_empty. cbn [after_last_slash]. by rewrite Hb.
  - rewrite append_String. cbn [after_last_slash]. by rewrite IH.
Qed.

Lemma ends_with_slash (a : string) :
  String.eqb (String.substring (String.length a - 1) 1 a) "/" = true →
  ∃ a0, a = a0 +:+ "/".
Proof.
  induction a as [| c r IH]; [done |].
  destruct r as [| c' r'].
  - cbn. destruct (Ascii.eqb_spec c "/") as [-> |]; [| by destruct (Ascii.eqb c "/")].
    intros _. by exists "".
  - replace (String.length (String c (String c' r')) - 1)
      with (S (String.length (String c' r') - 1)) by (simpl; lia).
    cbn [String.substring]. intros (a0 & ->)%IH. by exists (String c a0).
Qed.

(** X19: a file keeps its name when it is moved into the working
    directory: the destination [os.path.join(os.getcwd(),
    os.path.basename(p))] has the base name of [p], whatever the working
    directory is. *)
Theorem moved_file_keeps_its_name (cwd p : string) :
  basename (path_join cwd (basename p)) = basename p.
Proof.
  pose proof (basename_no_slash p) as Hname.
  set (name := basename p) in *. unfold path_join.
  destruct (String.prefix "/" name) eqn:Hpre.
  { destruct name as [| c r]; [done |]. cbn [String.prefix] in Hpre.
    destruct (ascii_dec "/" c) as [<- |]; [| done].
    cbn [after_last_slash] in Hname. by destruct (after_last_slash r). }
  destruct (String.eqb cwd "") eqn:Hcwd.
  { unfold basename. by rewrite Hname. }
  destruct (String.eqb (String.substring (String.length cwd - 1) 1 cwd) "/") eqn:Hend.
  - apply ends_with_slash in Hend as [a0 ->].
    rewrite append_assoc. unfold basename. by rewrite after_last_slash_app.
  - unfold basename. by rewrite after_last_slash_app.
Qed.

Lemma prefix_mp3_inv (s : string) :
  String.prefix ".mp3" s = true → ∃ r, s = ".mp3" +:+ r.
Proof.
  destruct s as [| c1 [| c2 [| c3 [| c4 r]]]]; cbn [String.prefix];
    repeat match goal with
           | |- context [ascii_dec ?a ?b] => destruct (ascii_dec a b) as [<- |]
           end; try done.
  intros _. by exists r.
Qed.

Lemma prefix_mp3_here (r : string) : String.prefix ".mp3" (".mp3" +:+ r) = true.
Proof.
  rewrite !append_String, append_empty. cbn [String.prefix].
  repeat match goal with
         | |- context [ascii_dec ?a ?b] => destruct (ascii_dec a b) as [_ |]; [| done]
         end.
  by destruct r.
Qed.

Ltac by_bits c := destruct c as [[] [] [] [] [] [] [] []]; try reflexivity.

(** Where the text does not begin with [.mp3], its first character stays. *)
Lemma replace_mp3_wav_other (c : ascii) (r : string) :
  String.prefix ".mp3" (String c r) = false →
  replace_mp3_wav (String c r) = String c (replace_mp3_wav r).
Proof.
  intros Hp. by_bits c.
  destruct r as [| c2 r2]; [reflexivity |]. by_bits c2.
  destruct r2 as [| c3 r3]; [reflexivity |]. by_bits c3.
  destruct r3 as [| c4 r4]; [reflexivity |]. by_bits c4.
  pose proof (prefix_mp3_here r4) as Hhere. rewrite !append_String, append_empty in Hhere.
  by rewrite Hhere in Hp.
Qed.

Lemma replace_mp3_wav_here (r : string) :
  replace_mp3_wav (".mp3" +:+ r) = ".wav" +:+ replace_mp3_wav r.
Proof. reflexivity. Qed.

Lemma prefix_mp3_app (a x : string) :
  String.prefix ".mp3" a = true → String.prefix ".mp3" (a +:+ x) = true.
Proof.
  intros [r ->]%prefix_mp3_inv. rewrite append_assoc. apply prefix_mp3_here.
Qed.

(** A final [.mp3] becomes [.wav]. *)
Lemma replace_mp3_wav_suffix (a : string) :
  replace_mp3_wav (a +:+ ".mp3") = replace_mp3_wav a +:+ ".wav".
Proof.
  remember (String.length a) as n eqn:Hn.
  revert a Hn. induction (lt_wf n) as [n _ IH]. intros a ->.
  destruct a as [| c a']; [reflexivity |].
  rewrite append_String.
  destruct (String.prefix ".mp3" (String c (a' +:+ ".mp3"))) eqn:Hp.
  - pose proof Hp as [r Hr]%prefix_mp3_inv.
    destruct a' as [| c2 [| c3 [| c4 a'']]];
      rewrite ?append_String, ?append_empty in Hr; try discriminate Hr.
    injection Hr as -> -> -> -> Hr. rewrite !append_String.
    change (String "." (String "m" (String "p" (String "3" (a'' +:+ ".mp3")))))
      with (".mp3" +:+ (a'' +:+ ".mp3")).
    change (String "." (String "m" (String "p" (String "3" a''))))
      with (".mp3" +:+ a'').
    rewrite !replace_mp3_wav_here, (IH (String.length a'')) by (simpl; lia || done).
    by rewrite append_assoc.
  - assert (String.prefix ".mp3" (String c a') = false) as Hp'.
    { destruct (String.prefix ".mp3" (String c a')) eqn:E; [| done].
      apply (prefix_mp3_app _ ".mp3") in E. rewrite append_String in E. congruence. }
    rewrite (replace_mp3_wav_other _ _ Hp), (replace_mp3_wav_other _ _ Hp').
    rewrite (IH (String.length a')) by (simpl; lia || done).
    by rewrite append_String.
Qed.

Lemma path_join_suffix (a b : string) : ∃ pre, path_join a b = pre +:+ b.
Proof.
  unfold path_join.
  destruct (String.prefix "/" b); [by exists "" |].
  destruct (String.eqb a ""); [by exists "" |].
  destruct (String.eqb _ "/"); [by exists a |].
  exists (a +:+ "/"). by rewrite append_assoc.
Qed.

Lemma append_length (a b : string) :
  String.length (a +:+ b) = String.length a + String.length b.
Proof. induction a as [| c a IH]; [done |]. rewrite append_String. simpl. by rewrite IH. Qed.

Lemma append_inj_r (a1 a2 b1 b2 : string) :
  String.length b1 = String.length b2 → a1 +:+ b1 = a2 +:+ b2 → b1 = b2.
Proof.
  revert a2. induction a1 as [| c a1 IH]; intros a2 Hlen E.
  - destruct a2 as [| c2 a2]; [done |].
    apply (f_equal String.length) in E. rewrite append_empty, append_length in E.
    simpl in E. lia.
  - destruct a2 as [| c2 a2].
    + apply (f_equal String.length) in E. rewrite append_empty, append_length in E.
      simpl in E. lia.
    + rewrite !append_String in E. injection E as _ E. by eapply IH.
Qed.

(** X20: under pyttsx3 the engine writes next to the MP3 target, not onto
    it: the path line 272 derives from [translated_<t>.mp3] ends in
    [.wav], so it differs from the target of the conversion, whatever the
    temporary directory and the time are. *)
Theorem wav_path_differs_from_mp3_path (w : World) (t : N) :
  (∃ stem, replace_mp3_wav (translated_path w t) = stem +:+ ".wav")
  ∧ (∃ stem, translated_path w t = stem +:+ ".mp3")
  ∧ replace_mp3_wav (translated_path w t) ≠ translated_path w t.
Proof.
  unfold translated_path.
  destruct (path_join_suffix (tempdir w) ("translated_" +:+ pretty t +:+ ".mp3")) as [pre E].
  assert (path_join (tempdir w) ("translated_" +:+ pretty t +:+ ".mp3")
          = (pre +:+ "translated_" +:+ pretty t) +:+ ".mp3") as ->
    by by rewrite E, !append_assoc.
  rewrite replace_mp3_wav_suffix.
  split; [by eexists |]. split; [by eexists |].
  intros Heq. by apply append_inj_r in Heq.
Qed.
